(** * The Donut: a shallow embedding of [donut.js]

    The program renders a rotating torus with quaternion rotations, a
    perspective projection and a per-pixel depth test.  This development
    embeds its classes ([Vector], [Quaternion], [Plotter], [Donut]) and proves
    properties of them.

    Numbers.  A JavaScript number is modelled by a real number ([R]): the
    arithmetic is exact, so rounding and overflow of IEEE doubles are outside
    the model.  Where the program divides by an argument that can be zero,
    the perspective division of [Plotter.plot] and the level of
    [makePalette], the non-finite results are written out ([JS.number]: a
    real, an infinity or NaN), and they are followed through the comparisons,
    the index arithmetic and the array accesses that come after.
    [Vector.normalize] divides by the length of its receiver; the model is
    meant for a nonzero receiver only, and every statement about it carries
    that hypothesis.

    Effects.  A method that assigns to [this] is a function from the object
    to the updated object.  [new Array(n)] can throw, and the two sweeps of
    [Donut.draw] are loops over a real counter: both give an [outcome].  The
    canvas is the program's output device; the state-passing [Donut.draw]
    leaves its commands out, and [Render] gives them as a list. *)

From Stdlib Require Import Reals Lra Lia ZArith List Psatz Bool Permutation.
Import ListNotations.
Open Scope R_scope.

(* ================================================================== *)
(** * Outcomes of fallible code *)

(** [new Array(n)] throws a [RangeError] when [n] is not an array length; the
    two sweeps of [Donut.draw] are [for] loops over a real counter and are run
    with fuel. *)
Inductive outcome (A : Type) : Type :=
| Ok (a : A)
| RangeError
| OutOfFuel.

Arguments Ok {A} a.
Arguments RangeError {A}.
Arguments OutOfFuel {A}.

Definition bind {A B : Type} (m : outcome A) (k : A -> outcome B) : outcome B :=
  match m with
  | Ok a => k a
  | RangeError => RangeError
  | OutOfFuel => OutOfFuel
  end.

Notation "x <- m ;; k" := (bind m (fun x => k))
  (at level 61, m at next level, right associativity).

(* ================================================================== *)
(** * JavaScript numbers and arrays *)

Module JS.

(** Comparisons of two finite numbers, as booleans. *)
Definition ltb (a b : R) : bool := if Rlt_dec a b then true else false.
Definition leb (a b : R) : bool := if Rle_dec a b then true else false.
Definition eqb (a b : R) : bool := if Req_EM_T a b then true else false.

(** A number that may be non-finite.  Zero carries no sign. *)
Inductive number : Type :=
| Fin (r : R)
| PInf
| NInf
| NaN.

(** [a / b] on finite operands. *)
Definition div (a b : R) : number :=
  if eqb b 0 then
    if eqb a 0 then NaN else if ltb 0 a then PInf else NInf
  else Fin (a / b).

Definition neg (a : number) : number :=
  match a with
  | Fin r => Fin (- r)
  | PInf => NInf
  | NInf => PInf
  | NaN => NaN
  end.

Definition add (a b : number) : number :=
  match a, b with
  | NaN, _ | _, NaN => NaN
  | Fin r, Fin s => Fin (r + s)
  | PInf, NInf | NInf, PInf => NaN
  | PInf, _ | _, PInf => PInf
  | NInf, _ | _, NInf => NInf
  end.

Definition sub (a b : number) : number := add a (neg b).

(** The sign rule of a product with an infinite factor. *)
Definition signed_inf (positive : bool) : number :=
  if positive then PInf else NInf.

Definition mul (a b : number) : number :=
  match a, b with
  | NaN, _ | _, NaN => NaN
  | Fin r, Fin s => Fin (r * s)
  | Fin r, PInf | PInf, Fin r =>
      if eqb r 0 then NaN else signed_inf (ltb 0 r)
  | Fin r, NInf | NInf, Fin r =>
      if eqb r 0 then NaN else signed_inf (ltb r 0)
  | PInf, PInf | NInf, NInf => PInf
  | PInf, NInf | NInf, PInf => NInf
  end.

(** [a / b] on any operands. *)
Definition ndiv (a b : number) : number :=
  match a, b with
  | NaN, _ | _, NaN => NaN
  | Fin r, Fin s => div r s
  | Fin _, _ => Fin 0
  | PInf, Fin s => signed_inf (leb 0 s)
  | NInf, Fin s => signed_inf (ltb s 0)
  | _, _ => NaN
  end.

(** [a < b]: false as soon as an operand is NaN. *)
Definition lt (a b : number) : bool :=
  match a, b with
  | NaN, _ | _, NaN => false
  | Fin r, Fin s => ltb r s
  | NInf, NInf | PInf, _ | _, NInf => false
  | NInf, _ | _, PInf => true
  end.

(** [a > b]. *)
Definition gt (a b : number) : bool := lt b a.

(** [Math.max(a, b)]. *)
Definition max (a b : number) : number :=
  match a, b with
  | NaN, _ | _, NaN => NaN
  | _, _ => if lt a b then b else a
  end.

(** Equality of numbers used as property keys: two numbers name the same
    property exactly when they are the same number ([NaN] names the property
    ["NaN"]). *)
Definition key_eqb (a b : number) : bool :=
  match a, b with
  | Fin r, Fin s => eqb r s
  | PInf, PInf | NInf, NInf | NaN, NaN => true
  | _, _ => false
  end.

(** [l || d] where [l] is [null] or a number: [null], [0] (and NaN, which the
    model does not have at this type) are falsy. *)
Definition or_else (l : option R) (d : R) : R :=
  match l with
  | Some t => if eqb t 0 then d else t
  | None => d
  end.

(** An array is used by the program through its properties only: a cell is
    absent ([undefined], [None]) or holds a value.  Any number is accepted as
    a key. *)
Definition array (A : Type) : Type := number -> option A.

Definition empty {A : Type} : array A := fun _ => None.

Definition get {A : Type} (arr : array A) (k : number) : option A := arr k.

Definition set {A : Type} (arr : array A) (k : number) (v : A) : array A :=
  fun k' => if key_eqb k k' then Some v else arr k'.

(** A valid array length: an integer in [[0, 2^32)]. *)
Definition array_length (n : R) : outcome nat :=
  if eqb (IZR (Zfloor n)) n && leb 0 n && ltb n 4294967296
  then Ok (Z.to_nat (Zfloor n))
  else RangeError.

(** [new Array(n)]: [n] empty cells. *)
Definition new_Array {A : Type} (n : R) : outcome (array A) :=
  _ <- array_length n ;; Ok empty.

(** [undefined <= z] is false; otherwise the comparison of the two numbers. *)
Definition cell_le (cell : option R) (z : R) : bool :=
  match cell with
  | Some z' => leb z' z
  | None => false
  end.

End JS.

(** [Math.round] on a finite number: the nearest integer, a tie going up. *)
Definition Math_round (r : R) : R := IZR (Zfloor (r + / 2)).

(** [Math.round] where the argument may be non-finite. *)
Definition Math_round_num (a : JS.number) : JS.number :=
  match a with
  | JS.Fin r => JS.Fin (Math_round r)
  | other => other
  end.

(** [Math.max] on finite numbers. *)
Definition Math_max (a b : R) : R := Rmax a b.

(* ================================================================== *)
(** * class Vector *)

Module Vector.

Record t : Type := mk { x : R; y : R; z : R }.

Definition scale (v : t) (s : R) : t :=
  mk (x v * s) (y v * s) (z v * s).

Definition dot (u v : t) : R :=
  x u * x v + y u * y v + z u * z v.

Definition cross (u v : t) : t :=
  mk (y u * z v - z u * y v)
     (z u * x v - x u * z v)
     (x u * y v - y u * x v).

Definition normalize (v : t) : t :=
  scale v (1 / sqrt (dot v v)).

Definition add (u v : t) : t :=
  mk (x u + x v) (y u + y v) (z u + z v).

(** The length of a vector, [|v|]. *)
Definition norm (v : t) : R := sqrt (dot v v).

End Vector.

Definition X_AXIS : Vector.t := Vector.mk 1 0 0.
Definition Y_AXIS : Vector.t := Vector.mk 0 1 0.
Definition Z_AXIS : Vector.t := Vector.mk 0 0 1.

(* ================================================================== *)
(** * class Quaternion *)

Module Quaternion.

Record t : Type := mk { scalar : R; vector : Vector.t }.

Definition forRotation (angle : R) (axis : Vector.t) : t :=
  let a := angle / 2 in
  mk (cos a) (Vector.scale (Vector.normalize axis) (sin a)).

Definition mult (p q : t) : t :=
  mk (scalar p * scalar q - Vector.dot (vector p) (vector q))
     (Vector.add
        (Vector.add (Vector.scale (vector q) (scalar p))
                    (Vector.scale (vector p) (scalar q)))
        (Vector.cross (vector p) (vector q))).

Definition conjugate (q : t) : t :=
  mk (scalar q) (Vector.scale (vector q) (-1)).

Definition rotate (q : t) (v : Vector.t) : Vector.t :=
  let r := mk 0 v in
  vector (mult (mult q r) (conjugate q)).

(** The squared length of a quaternion; it is 1 for a rotation. *)
Definition norm2 (q : t) : R :=
  scalar q * scalar q + Vector.dot (vector q) (vector q).

(** Unfolds the operations down to the components. *)
Ltac unfold_algebra :=
  unfold rotate, conjugate, mult, norm2,
         Vector.dot, Vector.add, Vector.scale, Vector.cross;
  cbn [scalar vector Vector.x Vector.y Vector.z].

End Quaternion.

(* ================================================================== *)
(** * class Plotter *)

(** A palette entry.  The program formats the CSS string
    [rgb(r%, g%, b%)]; the model keeps the three percentages. *)
Record Rgb : Type := mkRgb { red : JS.number; green : JS.number; blue : JS.number }.

(** The record [{x: xp, y: yp, c: color}] kept for the winner of a pixel. *)
Module Pixel.
Record t : Type := mk { x : JS.number; y : JS.number; c : R }.
End Pixel.

Module Plotter.

Record Bounds : Type := mkBounds { min : R; max : R }.

Record t : Type := mk {
  size : R;
  bounds : Bounds;
  scale : R;
  distance : R;
  palette : list Rgb;
  zbuf : JS.array R;
  points : JS.array Pixel.t
}.

Definition with_buffers (p : t) (zb : JS.array R) (pts : JS.array Pixel.t) : t :=
  mk (size p) (bounds p) (scale p) (distance p) (palette p) zb pts.

Definition reset (p : t) : outcome t :=
  zb <- JS.new_Array (size p * size p) ;;
  pts <- JS.new_Array (size p * size p) ;;
  Ok (with_buffers p zb pts).

(** The constructor.  Before [reset] runs the two buffers do not exist yet. *)
Definition new (size scale distance : R) (palette : list Rgb) : outcome t :=
  reset (mk (size + 1) (mkBounds (- size / 2) (size / 2))
            scale distance palette JS.empty JS.empty).

(** [palette.length]. *)
Definition palette_length (p : t) : R := INR (length (palette p)).

(** [color < 0 || color >= this.palette.length]. *)
Definition bad_color (p : t) (color : R) : bool :=
  JS.ltb color 0 || JS.leb (palette_length p) color.

(** [Math.round(this.distance * u / point.z)], the projected pixel coordinate
    of the component [u] of a point of depth [pz]. *)
Definition project (p : t) (u pz : R) : JS.number :=
  Math_round_num (JS.div (distance p * u) pz).

(** [cp < this.bounds.min || cp > this.bounds.max]. *)
Definition out_of_bounds (p : t) (cp : JS.number) : bool :=
  JS.lt cp (JS.Fin (min (bounds p))) || JS.gt cp (JS.Fin (max (bounds p))).

(** [(yp - this.bounds.min) * this.size + (xp - this.bounds.min)]. *)
Definition index (p : t) (xp yp : JS.number) : JS.number :=
  JS.add (JS.mul (JS.sub yp (JS.Fin (min (bounds p)))) (JS.Fin (size p)))
         (JS.sub xp (JS.Fin (min (bounds p)))).

Definition plot (p : t) (point : Vector.t) (color : R) : t :=
  if bad_color p color then p else
  let xp := project p (Vector.x point) (Vector.z point) in
  if out_of_bounds p xp then p else
  let yp := project p (Vector.y point) (Vector.z point) in
  if out_of_bounds p yp then p else
  let idx := index p xp yp in
  if JS.cell_le (JS.get (zbuf p) idx) (Vector.z point) then p else
  with_buffers p
    (JS.set (zbuf p) idx (Vector.z point))
    (JS.set (points p) idx (Pixel.mk xp yp color)).

(** The pixel coordinates of a call that returns at none of the palette and
    bounds checks (lines 92 to 102 of the source); [None] when it returns at
    one of them. *)
Definition accepted (p : t) (point : Vector.t) (color : R)
  : option (JS.number * JS.number) :=
  if bad_color p color then None else
  let xp := project p (Vector.x point) (Vector.z point) in
  if out_of_bounds p xp then None else
  let yp := project p (Vector.y point) (Vector.z point) in
  if out_of_bounds p yp then None else
  Some (xp, yp).

(** The buffer index at which such a call does its depth test. *)
Definition target (p : t) (point : Vector.t) (color : R) : option JS.number :=
  match accepted p point color with
  | Some (xp, yp) => Some (index p xp yp)
  | None => None
  end.

(** A pixel coordinate outside the inclusive range [[lo, hi]]: a number below
    [lo] or above [hi], the infinities included.  NaN is no coordinate: it is
    neither inside nor outside. *)
Definition outside (cp : JS.number) (lo hi : R) : Prop :=
  match cp with
  | JS.Fin r => r < lo \/ hi < r
  | JS.PInf | JS.NInf => True
  | JS.NaN => False
  end.

(** A plotter built for the grid dimension [n]: the constructor's [size] and
    [bounds], which no method changes. *)
Definition configured (n : R) (p : t) : Prop :=
  size p = n + 1 /\ bounds p = mkBounds (- n / 2) (n / 2).

End Plotter.

(** [makeColor(level)]. *)
Definition makeColor (level : JS.number) : Rgb :=
  mkRgb (JS.max level (JS.Fin 20))
        (JS.max (JS.ndiv level (JS.Fin 2)) (JS.Fin 10))
        (JS.ndiv level (JS.Fin 4)).

(** [makePalette(size)]. *)
Definition makePalette (size : R) : outcome (list Rgb) :=
  n <- JS.array_length size ;;
  Ok (map (fun i => makeColor (JS.div (Math_round (INR i * 100)) (size - 1)))
          (seq 0 n)).

(* ================================================================== *)
(** * class Donut *)

(** A [for (x = start; x < bound; x += inc)] loop over a real counter whose
    body may fail, run for at most [fuel] iterations. *)
Fixpoint for_loop {S : Type} (fuel : nat) (x bound inc : R)
    (body : R -> S -> outcome S) (s : S) : outcome S :=
  if JS.ltb x bound then
    match fuel with
    | O => OutOfFuel
    | Datatypes.S fuel' =>
        s' <- body x s ;; for_loop fuel' (x + inc) bound inc body s'
    end
  else Ok s.

Module Donut.

(** The constructor's options, [{scale = 8, size = 80, distance = 30,
    colors = 10}]. *)
Record Config : Type := mkConfig {
  cfg_scale : R;
  cfg_size : R;
  cfg_distance : R;
  cfg_colors : R
}.

Definition default_config : Config := mkConfig 8 80 30 10.

(** The fields of a [Donut].  The canvas context [ctx] is the external
    drawing surface: the program only sends it commands, and it is left out. *)
Record t : Type := mk {
  width : R;
  height : R;
  left : R;
  top : R;
  plotter : Plotter.t;
  lastTs : option R;
  a : R;
  b : R;
  R1 : R;
  R2 : R;
  CENTER : Vector.t;
  LIGHT : Vector.t;
  MAX_COLOR : R;
  PHI_INC : R;
  T_INC : R;
  FPS : R
}.

Definition new (cfg : Config) : outcome t :=
  let displaySize := cfg_size cfg * cfg_scale cfg in
  palette <- makePalette (cfg_colors cfg) ;;
  plotter <- Plotter.new (cfg_size cfg) (cfg_scale cfg) (cfg_distance cfg) palette ;;
  Ok (mk displaySize displaySize (- displaySize / 2) (- displaySize / 2)
         plotter None 1 1 1 2
         (Vector.mk 0 0 5)
         (Vector.normalize (Vector.mk 0 (-1) 1))
         (cfg_colors cfg - 1)
         (PI / 160)
         (PI / 80)
         60).

Definition with_plotter (d : t) (p : Plotter.t) : t :=
  mk (width d) (height d) (left d) (top d) p (lastTs d) (a d) (b d)
     (R1 d) (R2 d) (CENTER d) (LIGHT d) (MAX_COLOR d) (PHI_INC d) (T_INC d) (FPS d).

Definition with_time (d : t) (ts : option R) (a' b' : R) : t :=
  mk (width d) (height d) (left d) (top d) (plotter d) ts a' b'
     (R1 d) (R2 d) (CENTER d) (LIGHT d) (MAX_COLOR d) (PHI_INC d) (T_INC d) (FPS d).

(** [wobble], line 181. *)
Definition wobble (d : t) : Quaternion.t :=
  Quaternion.mult (Quaternion.forRotation (b d) Z_AXIS)
                  (Quaternion.forRotation (a d) X_AXIS).

(** [body], line 185. *)
Definition body (d : t) (phi : R) : Quaternion.t :=
  Quaternion.mult (wobble d) (Quaternion.forRotation phi Y_AXIS).

(** [rim], line 187. *)
Definition rim (t : R) : Quaternion.t := Quaternion.forRotation t Z_AXIS.

(** The surface point before it is moved to the camera frame: the argument of
    [.add(this.CENTER)] on lines 189 and 190. *)
Definition surface (d : t) (phi t : R) : Vector.t :=
  Quaternion.rotate (body d phi)
    (Vector.add (Quaternion.rotate (rim t) (Vector.scale X_AXIS (R1 d)))
                (Vector.scale X_AXIS (R2 d))).

(** [donut], lines 189 to 191. *)
Definition donut (d : t) (phi t : R) : Vector.t :=
  Vector.add (surface d phi t) (CENTER d).

(** [normal], line 193. *)
Definition normal (d : t) (phi t : R) : Vector.t :=
  Quaternion.rotate (body d phi) (Quaternion.rotate (rim t) X_AXIS).

(** The shading level of a normal, lines 194 and 195. *)
Definition shade (d : t) (n : Vector.t) : R :=
  Math_max 0 (Math_round (- Vector.dot (LIGHT d) n * MAX_COLOR d)).

(** [color], lines 194 and 195. *)
Definition color (d : t) (phi t : R) : R := shade d (normal d phi t).

(** One iteration of the inner loop. *)
Definition sample (d : t) (phi t : R) (p : Plotter.t) : outcome Plotter.t :=
  Ok (Plotter.plot p (donut d phi t) (color d phi t)).

(** The inner loop, lines 186 to 198. *)
Definition tube_sweep (fuel : nat) (d : t) (phi : R) (p : Plotter.t)
  : outcome Plotter.t :=
  for_loop fuel 0 (2 * PI) (T_INC d) (sample d phi) p.

(** The outer loop, lines 184 to 199. *)
Definition ring_sweep (fuel : nat) (d : t) (p : Plotter.t) : outcome Plotter.t :=
  for_loop fuel 0 (2 * PI) (PHI_INC d) (tube_sweep fuel d) p.

(** [Plotter.render] sends the winners to the canvas, grouped by colour, and
    ends with [this.reset()]: the reset is its whole effect on the program's
    own state.  (Every winner recorded by a sweep has an integer colour below
    [palette.length], so the grouping finds a bucket for each of them.) *)
Definition render (p : Plotter.t) : outcome Plotter.t := Plotter.reset p.

Definition draw (fuel : nat) (d : t) : outcome t :=
  p <- ring_sweep fuel d (plotter d) ;;
  p' <- render p ;;
  Ok (with_plotter d p').

Definition update (fuel : nat) (d : t) (ts : R) : outcome t :=
  let elapsed := ts - JS.or_else (lastTs d) ts in
  let dt := elapsed * FPS d / 1000 in
  draw fuel (with_time d (Some ts) (a d + 0.07 * dt) (b d + 0.03 * dt)).

(** The distance of a point [v] from the line through the origin with the
    unit direction [u]. *)
Definition axis_distance (v u : Vector.t) : R := Vector.norm (Vector.cross v u).

(** The ring axis of the torus: the angle [phi] turns about [Y_AXIS], carried
    along by [wobble]. *)
Definition ring_axis (d : t) : Vector.t := Quaternion.rotate (wobble d) Y_AXIS.

End Donut.

(** The program's own instance, [new Donut(canvas)] with the default
    options, written out field by field. *)
Definition default_palette : list Rgb :=
  map (fun i => makeColor (JS.div (Math_round (INR i * 100)) (10 - 1)))
      (seq 0 10).

Definition default_plotter : Plotter.t :=
  Plotter.mk (80 + 1) (Plotter.mkBounds (- 80 / 2) (80 / 2)) 8 30
             default_palette JS.empty JS.empty.

Definition default_donut : Donut.t :=
  Donut.mk (80 * 8) (80 * 8) (- (80 * 8) / 2) (- (80 * 8) / 2)
           default_plotter None 1 1 1 2
           (Vector.mk 0 0 5)
           (Vector.normalize (Vector.mk 0 (-1) 1))
           (10 - 1) (PI / 160) (PI / 80) 60.

(* ================================================================== *)
(** * The canvas and [Plotter.render] *)

(** The commands that the program sends to the canvas context. *)
Module Canvas.

Inductive command : Type :=
| clearRect (x y w h : R)
| fillStyle (style : Rgb)
| fillRect (x y : JS.number) (w h : R).

Definition is_fillRect (cmd : command) : bool :=
  match cmd with
  | fillRect _ _ _ _ => true
  | _ => false
  end.

Definition is_fillStyle (cmd : command) : bool :=
  match cmd with
  | fillStyle _ => true
  | _ => false
  end.

End Canvas.

Module Render.

(** [this.points.forEach]: the cells present at the indices [0 .. len - 1],
    in this order.  [len] is the length of the array. *)
Definition winners (p : Plotter.t) (len : nat) : list Pixel.t :=
  flat_map (fun i => match JS.get (Plotter.points p) (JS.Fin (INR i)) with
                     | Some px => [px]
                     | None => []
                     end)
           (seq 0 len).

(** [colors[c]] for an array [colors] of [n] buckets: the bucket exists when
    [c] is one of the integers [0 .. n - 1], and is [undefined] otherwise. *)
Definition bucket_of (n : nat) (c : R) : option nat :=
  if JS.eqb (IZR (Zfloor c)) c && JS.leb 0 c && JS.ltb c (INR n)
  then Some (Z.to_nat (Zfloor c))
  else None.


(** [colors[k].push(px)]. *)
Fixpoint push_at (k : nat) (px : Pixel.t) (colors : list (list Pixel.t))
  : list (list Pixel.t) :=
  match colors, k with
  | [], _ => []
  | ps :: rest, O => (ps ++ [px]) :: rest
  | ps :: rest, S k' => ps :: push_at k' px rest
  end.

(** [this.points.forEach(p => colors[p.c].push(p))], line 116: [None] when
    some [colors[p.c]] is [undefined], where the call of [push] throws a
    [TypeError]. *)
Fixpoint group (ws : list Pixel.t) (colors : list (list Pixel.t))
  : option (list (list Pixel.t)) :=
  match ws with
  | [] => Some colors
  | px :: rest =>
      match bucket_of (length colors) (Pixel.c px) with
      | Some k => group rest (push_at k px colors)
      | None => None
      end
  end.

(** The rectangle of line 120. *)
Definition rect (p : Plotter.t) (px : Pixel.t) : Canvas.command :=
  Canvas.fillRect
    (JS.mul (JS.Fin (Plotter.scale p)) (JS.sub (Pixel.x px) (JS.Fin 0.5)))
    (JS.mul (JS.Fin (Plotter.scale p)) (JS.sub (JS.Fin 0.5) (Pixel.y px)))
    (Plotter.scale p) (Plotter.scale p).

(** [colors.forEach((ps, c) => ...)], lines 117 to 123: [colors] has one
    bucket for each palette entry, so [this.palette[c]] is the entry at the
    position of the bucket. *)
Definition paint (p : Plotter.t) (colors : list (list Pixel.t))
  : list Canvas.command :=
  flat_map (fun entry => Canvas.fillStyle (fst entry) :: map (rect p) (snd entry))
           (combine (Plotter.palette p) colors).

(** How a call of [render] ends. *)
Inductive rendered : Type :=
| Rendered (cmds : list Canvas.command) (p' : Plotter.t)
| TypeError
| ResetError (cmds : list Canvas.command).

(** [Plotter.render(ctx)], lines 111 to 125.  The two buffers are allocated by
    [reset] with the length [size * size], and [plot] writes no cell at or
    beyond it on a plotter made by the constructor: this is the length that
    [forEach] sees.  A plotter for which it is no array length was never
    allocated. *)
Definition render (p : Plotter.t) : rendered :=
  match JS.array_length (Plotter.size p * Plotter.size p) with
  | Ok len =>
      match group (winners p len) (repeat [] (length (Plotter.palette p))) with
      | None => TypeError
      | Some colors =>
          match Plotter.reset p with
          | Ok p' => Rendered (paint p colors) p'
          | _ => ResetError (paint p colors)
          end
      end
  | _ => ResetError []
  end.

(** [Donut.draw], lines 178 to 201, with its canvas commands: the
    [clearRect] that it sends first, and how the call of [render] ends. *)
Definition draw (fuel : nat) (d : Donut.t) : outcome (Canvas.command * rendered) :=
  p <- Donut.ring_sweep fuel d (Donut.plotter d) ;;
  Ok (Canvas.clearRect (Donut.left d) (Donut.top d) (Donut.width d) (Donut.height d),
      render p).

(** A run of calls of [plot], one after the other. *)
Definition plot_all (p : Plotter.t) (samples : list (Vector.t * R)) : Plotter.t :=
  fold_left (fun q s => Plotter.plot q (fst s) (snd s)) samples p.

(** The values taken by the counter of a [for_loop]. *)
Fixpoint counter_values (fuel : nat) (x bound inc : R) : list R :=
  if JS.ltb x bound then
    match fuel with
    | O => []
    | S fuel' => x :: counter_values fuel' (x + inc) bound inc
    end
  else [].

(** The calls of [plot] made by the two sweeps of [Donut.draw], in order. *)
Definition samples (fuel : nat) (d : Donut.t) : list (Vector.t * R) :=
  flat_map (fun phi =>
              map (fun t => (Donut.donut d phi t, Donut.color d phi t))
                  (counter_values fuel 0 (2 * PI) (Donut.T_INC d)))
           (counter_values fuel 0 (2 * PI) (Donut.PHI_INC d)).

End Render.

(** Notions used to state what the depth buffer holds. *)
Module Depth.

(** The depth test of lines 104 to 107 on one cell: the cell after a
    candidate of depth [z] has been tested against it. *)
Definition closer (cell : option R) (z : R) : option R :=
  if JS.cell_le cell z then cell else Some z.

(** The depth of a sample, and the cell it is tested against. *)
Definition depth_of (s : Vector.t * R) : R := Vector.z (fst s).

Definition target_of (p : Plotter.t) (s : Vector.t * R) : option JS.number :=
  Plotter.target p (fst s) (snd s).

(** Whether a sample is tested against the cell [k] of the plotter [p]. *)
Definition hits (p : Plotter.t) (k : JS.number) (s : Vector.t * R) : bool :=
  match target_of p s with
  | Some idx => JS.key_eqb idx k
  | None => false
  end.

(** One cell of the depth buffer, followed through one call: [hit] tells
    whether the call is tested against the cell. *)
Definition step (hit : Vector.t * R -> bool) (cell : option R)
    (s : Vector.t * R) : option R :=
  if hit s then closer cell (depth_of s) else cell.

(** A result of [Math.round]: an integer when it is finite. *)
Definition rounded (a : JS.number) : Prop :=
  match a with
  | JS.Fin r => exists i : Z, r = IZR i
  | _ => True
  end.

(** The two buffers go together: a cell has a depth exactly when it has a
    winner, and a winner is the record of a call that passed the palette and
    bounds checks, with rounded coordinates, kept at the index of its own
    pixel. *)
Definition in_step (p : Plotter.t) : Prop :=
  forall k : JS.number,
    (JS.get (Plotter.zbuf p) k = None <-> JS.get (Plotter.points p) k = None)
    /\ forall px : Pixel.t,
         JS.get (Plotter.points p) k = Some px ->
         Plotter.index p (Pixel.x px) (Pixel.y px) = k
         /\ Plotter.bad_color p (Pixel.c px) = false
         /\ Plotter.out_of_bounds p (Pixel.x px) = false
         /\ Plotter.out_of_bounds p (Pixel.y px) = false
         /\ rounded (Pixel.x px) /\ rounded (Pixel.y px).

(** Every winner has an integer colour. *)
Definition integer_colours (p : Plotter.t) : Prop :=
  forall k px,
    JS.get (Plotter.points p) k = Some px -> exists m : Z, Pixel.c px = IZR m.

End Depth.

(** The driver of lines 204 to 213: the scheduler delivers one timestamp per
    frame, and each is passed to [update]. *)
Module Frame.

Fixpoint run (fuel : nat) (d : Donut.t) (ticks : list R) : outcome Donut.t :=
  match ticks with
  | [] => Ok d
  | ts :: rest => d' <- Donut.update fuel d ts ;; run fuel d' rest
  end.

End Frame.

(* ================================================================== *)
(** * Vector and quaternion algebra *)

Module VectorFacts.
Import Vector.

Lemma eq_components (u v : t) :
  x u = x v -> y u = y v -> z u = z v -> u = v.
Proof. destruct u, v; simpl; intros -> -> ->; reflexivity. Qed.

Lemma dot_self_nonneg (v : t) : 0 <= dot v v.
Proof. unfold dot; nra. Qed.

Lemma dot_self_pos (v : t) : v <> mk 0 0 0 -> 0 < dot v v.
Proof.
  intros Hv. destruct (Rle_lt_or_eq_dec _ _ (dot_self_nonneg v)) as [H | H]; trivial.
  exfalso; apply Hv. unfold dot in H.
  apply eq_components; simpl; nra.
Qed.

Lemma dot_comm (u v : t) : dot u v = dot v u.
Proof. unfold dot; ring. Qed.

(** Lagrange's identity. *)
Lemma cross_square (u v : t) :
  dot (cross u v) (cross u v) = dot u u * dot v v - dot u v * dot u v.
Proof. unfold dot, cross; simpl; ring. Qed.

(** The Cauchy-Schwarz inequality. *)
Lemma cauchy_schwarz (u v : t) : dot u v * dot u v <= dot u u * dot v v.
Proof.
  pose proof (dot_self_nonneg (cross u v)) as H.
  rewrite cross_square in H. lra.
Qed.

Lemma normalize_unit (v : t) :
  v <> mk 0 0 0 -> dot (normalize v) (normalize v) = 1.
Proof.
  intros Hv. pose proof (dot_self_pos v Hv) as Hpos.
  pose proof (sqrt_lt_R0 _ Hpos) as Hs.
  pose proof (sqrt_sqrt _ (Rlt_le _ _ Hpos)) as Hsq.
  unfold normalize, scale.
  set (k := sqrt (dot v v)) in *.
  transitivity (dot v v * (1 / k * (1 / k))).
  - unfold dot; simpl; ring.
  - rewrite <- Hsq. field. lra.
Qed.

Lemma norm_nonneg (v : t) : 0 <= norm v.
Proof. apply sqrt_pos. Qed.

Lemma norm_square (v : t) : norm v * norm v = dot v v.
Proof. apply sqrt_sqrt, dot_self_nonneg. Qed.

Lemma axes_unit :
  normalize X_AXIS = X_AXIS /\ normalize Y_AXIS = Y_AXIS /\ normalize Z_AXIS = Z_AXIS.
Proof.
  unfold normalize, scale, dot, X_AXIS, Y_AXIS, Z_AXIS; simpl.
  replace (1 * 1 + 0 * 0 + 0 * 0) with 1 by ring.
  replace (0 * 0 + 1 * 1 + 0 * 0) with 1 by ring.
  replace (0 * 0 + 0 * 0 + 1 * 1) with 1 by ring.
  rewrite sqrt_1.
  repeat split; apply eq_components; simpl; field.
Qed.

End VectorFacts.

Module QuaternionFacts.
Import Quaternion.

Lemma norm2_mult (p q : t) : norm2 (mult p q) = norm2 p * norm2 q.
Proof.
  destruct p as [s [a b c]], q as [s' [a' b' c']].
  unfold_algebra; ring.
Qed.

Lemma mult_assoc (p q r : t) : mult (mult p q) r = mult p (mult q r).
Proof.
  destruct p as [s [a b c]], q as [s' [a' b' c']], r as [s'' [a'' b'' c'']].
  unfold_algebra.
  f_equal; [ring | apply VectorFacts.eq_components; cbn [Vector.x Vector.y Vector.z]; ring].
Qed.

Lemma conjugate_mult (p q : t) :
  conjugate (mult p q) = mult (conjugate q) (conjugate p).
Proof.
  destruct p as [s [a b c]], q as [s' [a' b' c']].
  unfold_algebra.
  f_equal; [ring | apply VectorFacts.eq_components; cbn [Vector.x Vector.y Vector.z]; ring].
Qed.

(** The sandwich product of a quaternion without scalar part has no scalar
    part either. *)
Lemma sandwich_pure (q : t) (v : Vector.t) :
  mult (mult q (mk 0 v)) (conjugate q) = mk 0 (rotate q v).
Proof.
  destruct q as [s [a b c]], v as [vx vy vz].
  unfold_algebra. f_equal; ring.
Qed.

(** The rotation by a product is the composition of the rotations. *)
Lemma rotate_mult (p q : t) (v : Vector.t) :
  rotate (mult p q) v = rotate p (rotate q v).
Proof.
  unfold rotate at 1 2. rewrite <- sandwich_pure, conjugate_mult.
  rewrite !mult_assoc. reflexivity.
Qed.

(** The sandwich product scales every scalar product by the square of the
    squared length. *)
Lemma dot_rotate (q : t) (u v : Vector.t) :
  Vector.dot (rotate q u) (rotate q v) = norm2 q * norm2 q * Vector.dot u v.
Proof.
  destruct q as [s [a b c]], u as [ux uy uz], v as [vx vy vz].
  unfold_algebra; ring.
Qed.

Lemma forRotation_unit (angle : R) (axis : Vector.t) :
  axis <> Vector.mk 0 0 0 -> norm2 (forRotation angle axis) = 1.
Proof.
  intros Hax. pose proof (VectorFacts.normalize_unit axis Hax) as Hn.
  unfold norm2, forRotation; cbn [scalar vector].
  set (n := Vector.normalize axis) in *.
  transitivity (cos (angle / 2) * cos (angle / 2)
                + sin (angle / 2) * sin (angle / 2) * Vector.dot n n).
  - unfold Vector.dot, Vector.scale; cbn [Vector.x Vector.y Vector.z]; ring.
  - rewrite Hn. pose proof (sin2_cos2 (angle / 2)) as H. unfold Rsqr in H. lra.
Qed.

Lemma rotate_norm (q : t) (v : Vector.t) :
  norm2 q = 1 -> Vector.norm (rotate q v) = Vector.norm v.
Proof.
  intros Hq. unfold Vector.norm. rewrite dot_rotate, Hq.
  f_equal. ring.
Qed.

Lemma X_AXIS_nonzero : X_AXIS <> Vector.mk 0 0 0.
Proof. intros H. apply (f_equal Vector.x) in H. simpl in H. lra. Qed.

Lemma Y_AXIS_nonzero : Y_AXIS <> Vector.mk 0 0 0.
Proof. intros H. apply (f_equal Vector.y) in H. simpl in H. lra. Qed.

Lemma Z_AXIS_nonzero : Z_AXIS <> Vector.mk 0 0 0.
Proof. intros H. apply (f_equal Vector.z) in H. simpl in H. lra. Qed.

(** Two rotations about one unit direction multiply to the rotation by the
    sum of the half angles. *)
Lemma mult_same_direction (n : Vector.t) (h1 h2 : R) :
  Vector.dot n n = 1 ->
  mult (mk (cos h2) (Vector.scale n (sin h2))) (mk (cos h1) (Vector.scale n (sin h1)))
  = mk (cos (h1 + h2)) (Vector.scale n (sin (h1 + h2))).
Proof.
  intros Hn. destruct n as [a b c]. unfold Vector.dot in Hn; simpl in Hn.
  unfold_algebra.
  rewrite cos_plus, sin_plus. f_equal.
  - transitivity (cos h2 * cos h1 - sin h2 * sin h1 * (a * a + b * b + c * c)).
    + ring.
    + rewrite Hn. ring.
  - apply VectorFacts.eq_components; cbn [Vector.x Vector.y Vector.z]; ring.
Qed.

End QuaternionFacts.

(** C8: for every vector [v], every angle [theta] and every nonzero [axis],
    the rotation by [forRotation(theta, axis)] keeps the length of [v]:
    [|q.rotate(v)| = |v|]. *)
Theorem rotation_preserves_magnitude (theta : R) (axis v : Vector.t) :
  axis <> Vector.mk 0 0 0 ->
  Vector.norm (Quaternion.rotate (Quaternion.forRotation theta axis) v)
  = Vector.norm v.
Proof.
  intros Hax. apply QuaternionFacts.rotate_norm.
  apply QuaternionFacts.forRotation_unit, Hax.
Qed.

Lemma rotation_preserves_magnitude_witness :
  Vector.norm (Quaternion.rotate (Quaternion.forRotation 1 Z_AXIS) (Vector.mk 3 4 0))
  = Vector.norm (Vector.mk 3 4 0).
Proof.
  apply (rotation_preserves_magnitude 1 Z_AXIS (Vector.mk 3 4 0)).
  intros H. apply (f_equal Vector.z) in H. simpl in H. lra.
Defined.

(** C9: for a nonzero [axis], the product of [forRotation(theta2, axis)] and
    [forRotation(theta1, axis)] is [forRotation(theta1 + theta2, axis)], and
    rotating [v] by [theta1] and then by [theta2] about [axis], either through
    the product or one rotation after the other, gives the rotation of [v] by
    [theta1 + theta2]. *)
Theorem same_axis_rotations_compose (theta1 theta2 : R) (axis v : Vector.t) :
  axis <> Vector.mk 0 0 0 ->
  let q1 := Quaternion.forRotation theta1 axis in
  let q2 := Quaternion.forRotation theta2 axis in
  let q12 := Quaternion.forRotation (theta1 + theta2) axis in
  Quaternion.mult q2 q1 = q12
  /\ Quaternion.rotate (Quaternion.mult q2 q1) v = Quaternion.rotate q12 v
  /\ Quaternion.rotate q2 (Quaternion.rotate q1 v) = Quaternion.rotate q12 v.
Proof.
  intros Hax q1 q2 q12.
  assert (Hm : Quaternion.mult q2 q1 = q12).
  { unfold q1, q2, q12, Quaternion.forRotation.
    rewrite QuaternionFacts.mult_same_direction
      by (apply VectorFacts.normalize_unit, Hax).
    replace ((theta1 + theta2) / 2) with (theta1 / 2 + theta2 / 2) by field.
    reflexivity. }
  split; [exact Hm|]. split.
  - rewrite Hm; reflexivity.
  - rewrite <- QuaternionFacts.rotate_mult, Hm; reflexivity.
Qed.

Lemma same_axis_rotations_compose_witness :
  Quaternion.mult (Quaternion.forRotation 2 Y_AXIS) (Quaternion.forRotation 1 Y_AXIS)
  = Quaternion.forRotation (1 + 2) Y_AXIS
  /\ Quaternion.rotate
       (Quaternion.mult (Quaternion.forRotation 2 Y_AXIS) (Quaternion.forRotation 1 Y_AXIS))
       X_AXIS
     = Quaternion.rotate (Quaternion.forRotation (1 + 2) Y_AXIS) X_AXIS
  /\ Quaternion.rotate (Quaternion.forRotation 2 Y_AXIS)
       (Quaternion.rotate (Quaternion.forRotation 1 Y_AXIS) X_AXIS)
     = Quaternion.rotate (Quaternion.forRotation (1 + 2) Y_AXIS) X_AXIS.
Proof.
  apply (same_axis_rotations_compose 1 2 Y_AXIS X_AXIS).
  intros H. apply (f_equal Vector.y) in H. simpl in H. lra.
Defined.

(* ================================================================== *)
(** * Numbers, rounding and arrays *)

Module JSFacts.
Import JS.

Lemma ltb_true (a b : R) : a < b -> ltb a b = true.
Proof. intros H; unfold ltb; destruct (Rlt_dec a b); [reflexivity | contradiction]. Qed.

Lemma ltb_false (a b : R) : b <= a -> ltb a b = false.
Proof. intros H; unfold ltb; destruct (Rlt_dec a b); [lra | reflexivity]. Qed.

Lemma ltb_spec (a b : R) : ltb a b = true <-> a < b.
Proof. unfold ltb; destruct (Rlt_dec a b); split; intros; trivial; try discriminate; contradiction. Qed.

Lemma leb_true (a b : R) : a <= b -> leb a b = true.
Proof. intros H; unfold leb; destruct (Rle_dec a b); [reflexivity | contradiction]. Qed.

Lemma leb_false (a b : R) : b < a -> leb a b = false.
Proof. intros H; unfold leb; destruct (Rle_dec a b); [lra | reflexivity]. Qed.

Lemma leb_spec (a b : R) : leb a b = true <-> a <= b.
Proof. unfold leb; destruct (Rle_dec a b); split; intros; trivial; try discriminate; contradiction. Qed.

Lemma eqb_true (a b : R) : a = b -> eqb a b = true.
Proof. intros H; unfold eqb; destruct (Req_EM_T a b); [reflexivity | contradiction]. Qed.

Lemma eqb_false (a b : R) : a <> b -> eqb a b = false.
Proof. intros H; unfold eqb; destruct (Req_EM_T a b); [contradiction | reflexivity]. Qed.

Lemma eqb_spec (a b : R) : eqb a b = true <-> a = b.
Proof. unfold eqb; destruct (Req_EM_T a b); split; intros; trivial; try discriminate; contradiction. Qed.

Lemma key_eqb_refl (k : number) : key_eqb k k = true.
Proof. destruct k; simpl; trivial. apply eqb_true; reflexivity. Qed.

Lemma key_eqb_eq (k k' : number) : key_eqb k k' = true <-> k = k'.
Proof.
  split.
  - destruct k, k'; simpl; intros H; try discriminate; trivial.
    apply eqb_spec in H; subst; reflexivity.
  - intros <-; apply key_eqb_refl.
Qed.

Lemma get_set_same {A : Type} (arr : array A) (k : number) (v : A) :
  get (set arr k v) k = Some v.
Proof. unfold get, set; rewrite key_eqb_refl; reflexivity. Qed.

Lemma get_set_other {A : Type} (arr : array A) (k k' : number) (v : A) :
  k <> k' -> get (set arr k v) k' = get arr k'.
Proof.
  intros Hk; unfold get, set.
  destruct (key_eqb k k') eqn:E; trivial.
  apply key_eqb_eq in E; contradiction.
Qed.

Lemma div_nonzero (a b : R) : b <> 0 -> div a b = Fin (a / b).
Proof. intros Hb; unfold div; rewrite (eqb_false b 0 Hb); reflexivity. Qed.

(** With a nonzero divisor the quotient is finite; a NaN quotient of two
    reals is [0 / 0]. *)
Lemma div_NaN (a b : R) : div a b = NaN <-> a = 0 /\ b = 0.
Proof.
  unfold div. destruct (eqb b 0) eqn:Eb.
  - apply eqb_spec in Eb. destruct (eqb a 0) eqn:Ea.
    + apply eqb_spec in Ea; tauto.
    + assert (a <> 0) by (intros Ha; apply eqb_spec in Ha; congruence).
      destruct (ltb 0 a); split; try discriminate; tauto.
  - assert (b <> 0) by (intros Hb; apply eqb_spec in Hb; congruence).
    split; [discriminate | tauto].
Qed.

Lemma array_length_IZR (k : Z) :
  (0 <= k < 4294967296)%Z -> array_length (IZR k) = Ok (Z.to_nat k).
Proof.
  intros [Hlo Hhi]. unfold array_length. rewrite ZfloorZ.
  rewrite eqb_true by reflexivity.
  rewrite leb_true by (apply IZR_le; exact Hlo).
  rewrite ltb_true by (apply IZR_lt; exact Hhi).
  reflexivity.
Qed.

Lemma array_length_Ok (n : R) (len : nat) :
  array_length n = Ok len -> n = INR len.
Proof.
  unfold array_length.
  destruct (eqb (IZR (Zfloor n)) n) eqn:E1; [| discriminate].
  destruct (leb 0 n) eqn:E2; [| discriminate].
  destruct (ltb n 4294967296); [| discriminate]. simpl.
  intros H; inversion H; subst; clear H.
  apply eqb_spec in E1. apply leb_spec in E2.
  rewrite INR_IZR_INZ, Z2Nat.id; [congruence |].
  apply le_IZR. rewrite E1. exact E2.
Qed.

Lemma new_Array_Ok {A : Type} (n : R) (arr : array A) :
  new_Array n = Ok arr -> arr = empty.
Proof.
  unfold new_Array. destruct (array_length n); simpl; intros H; inversion H; reflexivity.
Qed.

End JSFacts.

Module RoundFacts.

Lemma Math_round_eq (r : R) (k : Z) :
  IZR k - / 2 <= r < IZR k + / 2 -> Math_round r = IZR k.
Proof.
  intros H. unfold Math_round. f_equal. apply Zfloor_eq. lra.
Qed.

Lemma Math_round_IZR (k : Z) : Math_round (IZR k) = IZR k.
Proof. apply Math_round_eq. lra. Qed.

Lemma Math_round_le (r : R) (m : Z) : r <= IZR m -> Math_round r <= IZR m.
Proof.
  intros H. unfold Math_round. apply IZR_le.
  assert (Hb := Zfloor_bound (r + / 2)).
  assert (Hlt : IZR (Zfloor (r + / 2)) < IZR (m + 1)) by (rewrite plus_IZR; lra).
  apply lt_IZR in Hlt. lia.
Qed.

Lemma Math_round_ge (r : R) (m : Z) : IZR m <= r -> IZR m <= Math_round r.
Proof.
  intros H. unfold Math_round. apply IZR_le, Zfloor_lub. lra.
Qed.

End RoundFacts.

(* ================================================================== *)
(** * The plotter: palette check, bounds check and depth test *)

Module PlotterFacts.
Import Plotter.

(** [plot] is the depth test at the pixel of [accepted]. *)
Lemma plot_unfold (p : t) (pt : Vector.t) (c : R) :
  plot p pt c =
  match accepted p pt c with
  | None => p
  | Some (xp, yp) =>
      if JS.cell_le (JS.get (zbuf p) (index p xp yp)) (Vector.z pt) then p
      else with_buffers p
             (JS.set (zbuf p) (index p xp yp) (Vector.z pt))
             (JS.set (points p) (index p xp yp) (Pixel.mk xp yp c))
  end.
Proof.
  unfold plot, accepted.
  destruct (bad_color p c); trivial.
  destruct (out_of_bounds p (project p (Vector.x pt) (Vector.z pt))); trivial.
  destruct (out_of_bounds p (project p (Vector.y pt) (Vector.z pt))); trivial.
Qed.

(** The checks read the configuration only, never the buffers. *)
Lemma accepted_with_buffers (p : t) zb pts (pt : Vector.t) (c : R) :
  accepted (with_buffers p zb pts) pt c = accepted p pt c.
Proof. reflexivity. Qed.

Lemma index_with_buffers (p : t) zb pts (xp yp : JS.number) :
  index (with_buffers p zb pts) xp yp = index p xp yp.
Proof. reflexivity. Qed.

Lemma plot_cases (p : t) (pt : Vector.t) (c : R) :
  plot p pt c = p \/ exists zb pts, plot p pt c = with_buffers p zb pts.
Proof.
  rewrite plot_unfold. destruct (accepted p pt c) as [[xp yp] |]; [| now left].
  destruct (JS.cell_le _ _); [now left | right; eauto].
Qed.

Lemma accepted_plot (p : t) (pt' : Vector.t) (c' : R) (pt : Vector.t) (c : R) :
  accepted (plot p pt' c') pt c = accepted p pt c.
Proof.
  destruct (plot_cases p pt' c') as [-> | (zb & pts & ->)]; reflexivity.
Qed.

Lemma configured_plot (n : R) (p : t) (pt : Vector.t) (c : R) :
  configured n p -> configured n (plot p pt c).
Proof.
  intros H. destruct (plot_cases p pt c) as [-> | (zb & pts & ->)]; exact H.
Qed.

Lemma reset_Ok (p p0 : t) :
  reset p = Ok p0 -> p0 = with_buffers p JS.empty JS.empty.
Proof.
  unfold reset.
  destruct (@JS.new_Array R (size p * size p)) as [zb | |] eqn:E1; try discriminate.
  destruct (@JS.new_Array Pixel.t (size p * size p)) as [pts | |] eqn:E2; try discriminate.
  simpl. intros H; inversion H; subst.
  apply JSFacts.new_Array_Ok in E1. apply JSFacts.new_Array_Ok in E2.
  subst. reflexivity.
Qed.

Lemma configured_new (n sc dist : R) (pal : list Rgb) (p : t) :
  new n sc dist pal = Ok p -> configured n p.
Proof.
  intros H. apply reset_Ok in H. subst p. split; reflexivity.
Qed.

Lemma out_of_bounds_outside (p : t) (cp : JS.number) :
  out_of_bounds p cp = true <-> outside cp (min (bounds p)) (max (bounds p)).
Proof.
  unfold out_of_bounds, JS.gt, outside.
  destruct cp; simpl; try tauto; try (split; [discriminate | tauto]).
  rewrite orb_true_iff, !JSFacts.ltb_spec. tauto.
Qed.

(** An accepted call whose point has a nonzero depth. *)
Lemma accepted_finite (p : t) (pt : Vector.t) (c : R) (i j : Z) :
  bad_color p c = false ->
  Vector.z pt <> 0 ->
  Math_round (distance p * Vector.x pt / Vector.z pt) = IZR i ->
  Math_round (distance p * Vector.y pt / Vector.z pt) = IZR j ->
  min (bounds p) <= IZR i <= max (bounds p) ->
  min (bounds p) <= IZR j <= max (bounds p) ->
  accepted p pt c = Some (JS.Fin (IZR i), JS.Fin (IZR j)).
Proof.
  intros Hc Hz Hi Hj Bi Bj. unfold accepted, project. rewrite Hc.
  rewrite !JSFacts.div_nonzero by exact Hz. simpl. rewrite Hi, Hj.
  unfold out_of_bounds, JS.gt. simpl.
  rewrite !JSFacts.ltb_false by lra. reflexivity.
Qed.

End PlotterFacts.

(** Facts about the default instance. *)
Module DefaultFacts.

Lemma palette_length : Plotter.palette_length default_plotter = 10.
Proof.
  unfold Plotter.palette_length, default_plotter, default_palette.
  cbn [Plotter.palette]. rewrite length_map, length_seq.
  rewrite INR_IZR_INZ. reflexivity.
Qed.

Lemma configured : Plotter.configured 80 default_plotter.
Proof. split; reflexivity. Qed.

Lemma reset : Plotter.reset default_plotter = Ok default_plotter.
Proof.
  unfold Plotter.reset, JS.new_Array. cbn [Plotter.size default_plotter].
  replace ((80 + 1) * (80 + 1)) with (IZR 6561) by lra.
  rewrite JSFacts.array_length_IZR by lia. reflexivity.
Qed.

Lemma good_color (k : Z) :
  (0 <= k <= 9)%Z -> Plotter.bad_color default_plotter (IZR k) = false.
Proof.
  intros [Hlo Hhi]. unfold Plotter.bad_color. rewrite palette_length.
  apply IZR_le in Hlo, Hhi.
  rewrite JSFacts.ltb_false, JSFacts.leb_false by lra. reflexivity.
Qed.

(** A point on the view axis is accepted at the centre pixel, whose buffer
    index is 3280. *)
Lemma centre (z : R) (k : Z) :
  z <> 0 -> (0 <= k <= 9)%Z ->
  Plotter.target default_plotter (Vector.mk 0 0 z) (IZR k) = Some (JS.Fin 3280).
Proof.
  intros Hz Hk. unfold Plotter.target.
  rewrite (PlotterFacts.accepted_finite default_plotter _ _ 0 0).
  - unfold Plotter.index, default_plotter; simpl. f_equal. f_equal. lra.
  - apply good_color, Hk.
  - exact Hz.
  - cbn [Vector.x Vector.z]. apply RoundFacts.Math_round_eq.
    replace (Plotter.distance default_plotter * 0 / z) with 0
      by (unfold Rdiv; ring). lra.
  - cbn [Vector.y Vector.z]. apply RoundFacts.Math_round_eq.
    replace (Plotter.distance default_plotter * 0 / z) with 0
      by (unfold Rdiv; ring). lra.
  - unfold default_plotter; simpl; lra.
  - unfold default_plotter; simpl; lra.
Qed.

End DefaultFacts.

(** C2: two calls of [plot] that pass the palette and bounds checks and reach
    the same buffer index [idx], with depths [z1 < z2] and any colours, made
    in either order on a freshly reset plotter, leave [z1] as the stored depth
    at [idx] (and the first point's colour as its winner). *)
Theorem closer_point_wins (p p0 : Plotter.t) (pt1 pt2 : Vector.t) (c1 c2 : R)
    (idx : JS.number) :
  Plotter.reset p = Ok p0 ->
  Plotter.target p0 pt1 c1 = Some idx ->
  Plotter.target p0 pt2 c2 = Some idx ->
  Vector.z pt1 < Vector.z pt2 ->
  let first := Plotter.plot (Plotter.plot p0 pt1 c1) pt2 c2 in
  let second := Plotter.plot (Plotter.plot p0 pt2 c2) pt1 c1 in
  JS.get (Plotter.zbuf first) idx = Some (Vector.z pt1)
  /\ JS.get (Plotter.zbuf second) idx = Some (Vector.z pt1)
  /\ option_map Pixel.c (JS.get (Plotter.points first) idx) = Some c1
  /\ option_map Pixel.c (JS.get (Plotter.points second) idx) = Some c1.
Proof.
  intros Hreset H1 H2 Hlt first second. subst first second.
  apply PlotterFacts.reset_Ok in Hreset.
  unfold Plotter.target in H1, H2.
  destruct (Plotter.accepted p0 pt1 c1) as [[x1 y1] |] eqn:A1; [| discriminate].
  destruct (Plotter.accepted p0 pt2 c2) as [[x2 y2] |] eqn:A2; [| discriminate].
  inversion H1 as [I1]; inversion H2 as [I2]; clear H1 H2.
  assert (Hempty : JS.get (Plotter.zbuf p0) idx = None) by (subst p0; reflexivity).
  rewrite (PlotterFacts.plot_unfold p0 pt1 c1), (PlotterFacts.plot_unfold p0 pt2 c2).
  rewrite A1, A2, I1, I2, Hempty. cbn [JS.cell_le].
  rewrite !PlotterFacts.plot_unfold, !PlotterFacts.accepted_with_buffers, A1, A2.
  rewrite !PlotterFacts.index_with_buffers, I1, I2.
  cbn [Plotter.zbuf Plotter.points Plotter.with_buffers].
  rewrite !JSFacts.get_set_same. cbn [JS.cell_le].
  rewrite JSFacts.leb_true by lra. rewrite JSFacts.leb_false by lra.
  cbn [Plotter.zbuf Plotter.points Plotter.with_buffers].
  rewrite !JSFacts.get_set_same. repeat split; reflexivity.
Qed.

Lemma closer_point_wins_witness :
  JS.get (Plotter.zbuf
            (Plotter.plot (Plotter.plot default_plotter (Vector.mk 0 0 5) 3)
                          (Vector.mk 0 0 6) 7))
         (JS.Fin 3280) = Some 5
  /\ JS.get (Plotter.zbuf
               (Plotter.plot (Plotter.plot default_plotter (Vector.mk 0 0 6) 7)
                             (Vector.mk 0 0 5) 3))
            (JS.Fin 3280) = Some 5.
Proof.
  destruct (closer_point_wins default_plotter default_plotter
              (Vector.mk 0 0 5) (Vector.mk 0 0 6) 3 7 (JS.Fin 3280))
    as (H1 & H2 & _).
  - exact DefaultFacts.reset.
  - apply (DefaultFacts.centre 5 3); [lra | lia].
  - apply (DefaultFacts.centre 6 7); [lra | lia].
  - simpl; lra.
  - split; [exact H1 | exact H2].
Defined.

(** C5: on a plotter built for the grid dimension [size], a call of [plot]
    whose projected pixel coordinate [x] or [y] lies outside
    [[-size/2, size/2]] returns the plotter as it was: neither the depth
    buffer nor the winner array is written. *)
Theorem out_of_range_pixel_is_dropped (size : R) (p : Plotter.t)
    (pt : Vector.t) (c : R) :
  Plotter.configured size p ->
  Plotter.outside (Plotter.project p (Vector.x pt) (Vector.z pt)) (- size / 2) (size / 2)
  \/ Plotter.outside (Plotter.project p (Vector.y pt) (Vector.z pt)) (- size / 2) (size / 2) ->
  Plotter.plot p pt c = p
  /\ Plotter.zbuf (Plotter.plot p pt c) = Plotter.zbuf p
  /\ Plotter.points (Plotter.plot p pt c) = Plotter.points p.
Proof.
  intros [_ Hb] Hout.
  assert (H : Plotter.plot p pt c = p).
  { unfold Plotter.plot.
    destruct (Plotter.bad_color p c); trivial.
    destruct (Plotter.out_of_bounds p (Plotter.project p (Vector.x pt) (Vector.z pt)))
      eqn:Ex; trivial.
    destruct (Plotter.out_of_bounds p (Plotter.project p (Vector.y pt) (Vector.z pt)))
      eqn:Ey; trivial.
    exfalso. destruct Hout as [Hout | Hout].
    - assert (Ht : Plotter.out_of_bounds p
                     (Plotter.project p (Vector.x pt) (Vector.z pt)) = true)
        by (apply PlotterFacts.out_of_bounds_outside; rewrite Hb; exact Hout).
      congruence.
    - assert (Ht : Plotter.out_of_bounds p
                     (Plotter.project p (Vector.y pt) (Vector.z pt)) = true)
        by (apply PlotterFacts.out_of_bounds_outside; rewrite Hb; exact Hout).
      congruence. }
  rewrite H. repeat split; reflexivity.
Qed.

Lemma out_of_range_pixel_is_dropped_witness :
  Plotter.plot default_plotter (Vector.mk (41 / 6) 0 5) 0 = default_plotter
  /\ Plotter.plot default_plotter (Vector.mk 0 (- 41 / 6) 5) 0 = default_plotter.
Proof.
  split.
  - apply (out_of_range_pixel_is_dropped 80 default_plotter (Vector.mk (41 / 6) 0 5) 0).
    + exact DefaultFacts.configured.
    + left. unfold Plotter.project. cbn [Vector.x Vector.z].
      rewrite JSFacts.div_nonzero by lra. cbn [Math_round_num].
      rewrite (RoundFacts.Math_round_eq _ 41)
        by (unfold default_plotter; cbn [Plotter.distance]; lra).
      simpl. right. lra.
  - apply (out_of_range_pixel_is_dropped 80 default_plotter (Vector.mk 0 (- 41 / 6) 5) 0).
    + exact DefaultFacts.configured.
    + right. unfold Plotter.project. cbn [Vector.y Vector.z].
      rewrite JSFacts.div_nonzero by lra. cbn [Math_round_num].
      rewrite (RoundFacts.Math_round_eq _ (-41))
        by (unfold default_plotter; cbn [Plotter.distance]; lra).
      simpl. left. lra.
Defined.

(** C6: a call of [plot] whose shading index [k] is outside
    [[0, paletteSize - 1]] returns the plotter as it was, whatever the point
    is (so whatever the projection would give): neither the depth buffer nor
    the winner array is written. *)
Theorem bad_palette_index_is_dropped (p : Plotter.t) (pt : Vector.t) (k : Z) :
  (k < 0 \/ Z.of_nat (length (Plotter.palette p)) - 1 < k)%Z ->
  Plotter.plot p pt (IZR k) = p
  /\ Plotter.zbuf (Plotter.plot p pt (IZR k)) = Plotter.zbuf p
  /\ Plotter.points (Plotter.plot p pt (IZR k)) = Plotter.points p.
Proof.
  intros Hk.
  assert (Hbad : Plotter.bad_color p (IZR k) = true).
  { unfold Plotter.bad_color, Plotter.palette_length. rewrite INR_IZR_INZ.
    apply orb_true_iff. destruct Hk as [Hk | Hk].
    - left. apply JSFacts.ltb_true. apply IZR_lt. exact Hk.
    - right. apply JSFacts.leb_true. apply IZR_le. lia. }
  assert (H : Plotter.plot p pt (IZR k) = p)
    by (unfold Plotter.plot; rewrite Hbad; reflexivity).
  rewrite H. repeat split; reflexivity.
Qed.

Lemma bad_palette_index_is_dropped_witness :
  Plotter.plot default_plotter (Vector.mk 0 0 5) (IZR (-1)) = default_plotter
  /\ Plotter.plot default_plotter (Vector.mk 0 0 5) (IZR 10) = default_plotter.
Proof.
  split.
  - apply (bad_palette_index_is_dropped default_plotter (Vector.mk 0 0 5) (-1)).
    left. lia.
  - apply (bad_palette_index_is_dropped default_plotter (Vector.mk 0 0 5) 10).
    right. vm_compute. reflexivity.
Defined.

(** C7: submitting the same call of [plot] a second time leaves the plotter,
    depth buffer and winner array included, exactly as the first submission
    left it. *)
Theorem plot_twice_is_plot_once (p : Plotter.t) (pt : Vector.t) (c : R) :
  Plotter.plot (Plotter.plot p pt c) pt c = Plotter.plot p pt c.
Proof.
  rewrite (PlotterFacts.plot_unfold (Plotter.plot p pt c)).
  rewrite PlotterFacts.accepted_plot.
  destruct (Plotter.accepted p pt c) as [[xp yp] |] eqn:A; [| reflexivity].
  rewrite (PlotterFacts.plot_unfold p pt c), A.
  destruct (JS.cell_le (JS.get (Plotter.zbuf p) (Plotter.index p xp yp)) (Vector.z pt))
    eqn:E.
  - rewrite E. reflexivity.
  - rewrite PlotterFacts.index_with_buffers.
    cbn [Plotter.zbuf Plotter.with_buffers].
    rewrite JSFacts.get_set_same. cbn [JS.cell_le].
    rewrite JSFacts.leb_true by lra. reflexivity.
Qed.

Module IndexFacts.
Import Plotter.

(** With a nonzero depth the projected coordinate is an integer. *)
Lemma project_integer (p : t) (u pz : R) :
  pz <> 0 -> exists i : Z, project p u pz = JS.Fin (IZR i).
Proof.
  intros Hz. unfold project. rewrite JSFacts.div_nonzero by exact Hz.
  eexists. reflexivity.
Qed.

Lemma in_bounds_integer (n : R) (k : Z) (p : t) (i : Z) :
  configured n p -> n / 2 = IZR k ->
  out_of_bounds p (JS.Fin (IZR i)) = false -> (- k <= i <= k)%Z.
Proof.
  intros [_ Hb] Hk H. unfold out_of_bounds, JS.gt in H. rewrite Hb in H.
  cbn [min max JS.lt] in H. apply orb_false_iff in H. destruct H as [H1 H2].
  assert (L1 : ~ IZR i < - n / 2) by (intros C; apply JSFacts.ltb_spec in C; congruence).
  assert (L2 : ~ n / 2 < IZR i) by (intros C; apply JSFacts.ltb_spec in C; congruence).
  split; apply le_IZR; [rewrite opp_IZR |]; lra.
Qed.

Lemma index_integer (n : R) (k : Z) (p : t) (i j : Z) :
  configured n p -> n / 2 = IZR k ->
  index p (JS.Fin (IZR i)) (JS.Fin (IZR j))
  = JS.Fin (IZR ((j + k) * (2 * k + 1) + (i + k))).
Proof.
  intros [Hs Hb] Hk. unfold index. rewrite Hs, Hb. cbn [min JS.sub JS.neg JS.add JS.mul].
  f_equal. rewrite !plus_IZR, !mult_IZR, !plus_IZR, mult_IZR.
  replace n with (2 * IZR k) by lra. field.
Qed.

(** What an accepted call with a nonzero depth yields. *)
Lemma accepted_integers (n : R) (k : Z) (p : t) (pt : Vector.t) (c : R)
    (xp yp : JS.number) :
  configured n p -> n / 2 = IZR k -> Vector.z pt <> 0 ->
  accepted p pt c = Some (xp, yp) ->
  exists i j : Z,
    xp = JS.Fin (IZR i) /\ yp = JS.Fin (IZR j)
    /\ (- k <= i <= k)%Z /\ (- k <= j <= k)%Z.
Proof.
  intros Hp Hk Hz. unfold accepted.
  destruct (bad_color p c); [discriminate |].
  destruct (project_integer p (Vector.x pt) (Vector.z pt) Hz) as [i Hi].
  destruct (project_integer p (Vector.y pt) (Vector.z pt) Hz) as [j Hj].
  rewrite Hi, Hj.
  destruct (out_of_bounds p (JS.Fin (IZR i))) eqn:Ex; [discriminate |].
  destruct (out_of_bounds p (JS.Fin (IZR j))) eqn:Ey; [discriminate |].
  intros H; inversion H; subst.
  pose proof (in_bounds_integer n k p i Hp Hk Ex).
  pose proof (in_bounds_integer n k p j Hp Hk Ey).
  exists i, j. repeat split; trivial; lia.
Qed.

Lemma row_major_injective (k i j i' j' : Z) :
  (- k <= i <= k)%Z -> (- k <= i' <= k)%Z ->
  ((j + k) * (2 * k + 1) + (i + k) = (j' + k) * (2 * k + 1) + (i' + k))%Z ->
  i = i' /\ j = j'.
Proof.
  intros Hi Hi' H.
  assert (Hj : j = j') by nia.
  subst j'. split; [lia | reflexivity].
Qed.

End IndexFacts.

(** C10, amended: on a plotter built for a grid dimension [size] with
    [size/2] an integer [k], a call of [plot] on a point of nonzero depth that
    passes the palette and bounds checks has integer pixel coordinates in
    [[-k, k]]; its buffer index is an integer in [[0, (size+1)^2)], the number
    of cells allocated; and two such calls with different pixel coordinates
    have different indices. *)
Theorem accepted_index_in_range (size : R) (k : Z) (p : Plotter.t)
    (pt : Vector.t) (c : R) (xp yp : JS.number) :
  Plotter.configured size p ->
  size / 2 = IZR k ->
  Vector.z pt <> 0 ->
  Plotter.accepted p pt c = Some (xp, yp) ->
  (exists i j m : Z,
      xp = JS.Fin (IZR i) /\ yp = JS.Fin (IZR j)
      /\ (- k <= i <= k)%Z /\ (- k <= j <= k)%Z
      /\ Plotter.index p xp yp = JS.Fin (IZR m)
      /\ 0 <= IZR m < (size + 1) * (size + 1)
      /\ IZR m < Plotter.size p * Plotter.size p)
  /\ (forall (pt' : Vector.t) (c' : R) (xp' yp' : JS.number),
        Vector.z pt' <> 0 ->
        Plotter.accepted p pt' c' = Some (xp', yp') ->
        Plotter.index p xp yp = Plotter.index p xp' yp' ->
        xp = xp' /\ yp = yp').
Proof.
  intros Hp Hk Hz Hacc.
  destruct (IndexFacts.accepted_integers size k p pt c xp yp Hp Hk Hz Hacc)
    as (i & j & -> & -> & Hi & Hj).
  assert (Hsize : size + 1 = IZR (2 * k + 1))
    by (rewrite plus_IZR, mult_IZR; lra).
  split.
  - exists i, j, ((j + k) * (2 * k + 1) + (i + k))%Z.
    rewrite (IndexFacts.index_integer size k p i j Hp Hk).
    destruct Hp as [Hs _]. rewrite Hs, Hsize, <- mult_IZR.
    split; [reflexivity |]. split; [reflexivity |].
    split; [exact Hi |]. split; [exact Hj |]. split; [reflexivity |].
    change 0 with (IZR 0).
    split; [split |]; [apply IZR_le | apply IZR_lt | apply IZR_lt]; nia.
  - intros pt' c' xp' yp' Hz' Hacc' Hidx.
    destruct (IndexFacts.accepted_integers size k p pt' c' xp' yp' Hp Hk Hz' Hacc')
      as (i' & j' & -> & -> & Hi' & Hj').
    rewrite !(IndexFacts.index_integer size k p _ _ Hp Hk) in Hidx.
    inversion Hidx as [Heq]. apply eq_IZR in Heq.
    destruct (IndexFacts.row_major_injective k i j i' j' Hi Hi' Heq) as [-> ->].
    split; reflexivity.
Qed.

Lemma accepted_index_in_range_witness :
  exists i j m : Z,
    JS.Fin (IZR 0) = JS.Fin (IZR i) /\ JS.Fin (IZR 0) = JS.Fin (IZR j)
    /\ (- 40 <= i <= 40)%Z /\ (- 40 <= j <= 40)%Z
    /\ Plotter.index default_plotter (JS.Fin (IZR 0)) (JS.Fin (IZR 0)) = JS.Fin (IZR m)
    /\ 0 <= IZR m < (80 + 1) * (80 + 1)
    /\ IZR m < Plotter.size default_plotter * Plotter.size default_plotter.
Proof.
  refine (proj1 (accepted_index_in_range 80 40 default_plotter
                   (Vector.mk 0 0 5) 0 (JS.Fin (IZR 0)) (JS.Fin (IZR 0)) _ _ _ _)).
  - exact DefaultFacts.configured.
  - lra.
  - simpl; lra.
  - apply (PlotterFacts.accepted_finite default_plotter (Vector.mk 0 0 5) 0 0 0).
    + apply (DefaultFacts.good_color 0); lia.
    + simpl; lra.
    + apply RoundFacts.Math_round_eq. unfold default_plotter; simpl; lra.
    + apply RoundFacts.Math_round_eq. unfold default_plotter; simpl; lra.
    + unfold default_plotter; simpl; lra.
    + unfold default_plotter; simpl; lra.
Defined.

(** C10 as it was stated fails: the point [(0, 0, 0)] projects to NaN, which
    is neither below [min] nor above [max], so the call passes every check;
    its buffer index is NaN, no integer, and the depth is stored under that
    key. *)
Lemma accepted_index_counterexample :
  Plotter.configured 80 default_plotter
  /\ 80 / 2 = IZR 40
  /\ Plotter.accepted default_plotter (Vector.mk 0 0 0) 0 = Some (JS.NaN, JS.NaN)
  /\ Plotter.index default_plotter JS.NaN JS.NaN = JS.NaN
  /\ (forall m : Z, Plotter.index default_plotter JS.NaN JS.NaN <> JS.Fin (IZR m))
  /\ JS.get (Plotter.zbuf (Plotter.plot default_plotter (Vector.mk 0 0 0) 0)) JS.NaN
     = Some 0.
Proof.
  assert (Hproj : Plotter.project default_plotter 0 0 = JS.NaN).
  { unfold Plotter.project, JS.div.
    rewrite !JSFacts.eqb_true; [reflexivity | | reflexivity].
    unfold default_plotter; cbn [Plotter.distance]; ring. }
  assert (Hacc : Plotter.accepted default_plotter (Vector.mk 0 0 0) 0
                 = Some (JS.NaN, JS.NaN)).
  { unfold Plotter.accepted. change 0 with (IZR 0) at 1.
    rewrite (DefaultFacts.good_color 0) by lia.
    cbn [Vector.x Vector.y Vector.z]. rewrite Hproj. reflexivity. }
  split; [exact DefaultFacts.configured |].
  split; [lra |].
  split; [exact Hacc |].
  split; [reflexivity |].
  split; [intros m H; discriminate H |].
  rewrite PlotterFacts.plot_unfold, Hacc. reflexivity.
Qed.

(* ================================================================== *)
(** * The torus sampler and the shading *)

Module DonutFacts.
Import Donut.

Lemma forRotation_X (angle : R) :
  Quaternion.forRotation angle X_AXIS
  = Quaternion.mk (cos (angle / 2)) (Vector.scale X_AXIS (sin (angle / 2))).
Proof.
  unfold Quaternion.forRotation.
  destruct VectorFacts.axes_unit as (-> & _ & _). reflexivity.
Qed.

Lemma forRotation_Y (angle : R) :
  Quaternion.forRotation angle Y_AXIS
  = Quaternion.mk (cos (angle / 2)) (Vector.scale Y_AXIS (sin (angle / 2))).
Proof.
  unfold Quaternion.forRotation.
  destruct VectorFacts.axes_unit as (_ & -> & _). reflexivity.
Qed.

Lemma forRotation_Z (angle : R) :
  Quaternion.forRotation angle Z_AXIS
  = Quaternion.mk (cos (angle / 2)) (Vector.scale Z_AXIS (sin (angle / 2))).
Proof.
  unfold Quaternion.forRotation.
  destruct VectorFacts.axes_unit as (_ & _ & ->). reflexivity.
Qed.

Lemma wobble_unit (d : t) : Quaternion.norm2 (wobble d) = 1.
Proof.
  unfold wobble. rewrite QuaternionFacts.norm2_mult.
  rewrite !QuaternionFacts.forRotation_unit;
    [ring | apply QuaternionFacts.X_AXIS_nonzero | apply QuaternionFacts.Z_AXIS_nonzero].
Qed.

Lemma body_unit (d : t) (phi : R) : Quaternion.norm2 (body d phi) = 1.
Proof.
  unfold body. rewrite QuaternionFacts.norm2_mult, wobble_unit.
  rewrite QuaternionFacts.forRotation_unit by apply QuaternionFacts.Y_AXIS_nonzero.
  ring.
Qed.

Lemma rim_unit (t : R) : Quaternion.norm2 (rim t) = 1.
Proof. apply QuaternionFacts.forRotation_unit, QuaternionFacts.Z_AXIS_nonzero. Qed.

Lemma half_angle_cos (t : R) :
  cos (t / 2) * cos (t / 2) - sin (t / 2) * sin (t / 2) = cos t.
Proof.
  rewrite <- cos_2a. f_equal. field.
Qed.

Lemma half_angle_sin (t : R) : 2 * sin (t / 2) * cos (t / 2) = sin t.
Proof.
  rewrite <- sin_2a. f_equal. field.
Qed.

(** The tube circle: [rim] turns the scaled X axis in the XY plane. *)
Lemma rim_rotate (t r : R) :
  Quaternion.rotate (rim t) (Vector.scale X_AXIS r)
  = Vector.mk (r * cos t) (r * sin t) 0.
Proof.
  unfold rim. rewrite forRotation_Z.
  rewrite <- (half_angle_cos t), <- (half_angle_sin t).
  apply VectorFacts.eq_components;
    unfold X_AXIS, Z_AXIS; Quaternion.unfold_algebra; ring.
Qed.

(** The ring rotation leaves its own axis in place. *)
Lemma ring_rotate_axis (phi : R) :
  Quaternion.rotate (Quaternion.forRotation phi Y_AXIS) Y_AXIS = Y_AXIS.
Proof.
  rewrite forRotation_Y.
  pose proof (sin2_cos2 (phi / 2)) as H. unfold Rsqr in H.
  apply VectorFacts.eq_components;
    unfold Y_AXIS; Quaternion.unfold_algebra; nra.
Qed.

(** The offset of line 190, before any rotation by [body]. *)
Lemma local_offset (d : t) (t : R) :
  Vector.add (Quaternion.rotate (rim t) (Vector.scale X_AXIS (R1 d)))
             (Vector.scale X_AXIS (R2 d))
  = Vector.mk (R2 d + R1 d * cos t) (R1 d * sin t) 0.
Proof.
  rewrite rim_rotate.
  apply VectorFacts.eq_components;
    unfold X_AXIS, Vector.add, Vector.scale; cbn [Vector.x Vector.y Vector.z]; ring.
Qed.

(** [body] keeps scalar products, and carries [Y_AXIS] to the ring axis. *)
Lemma dot_ring_rotate_axis (phi : R) (v : Vector.t) :
  Vector.dot (Quaternion.rotate (Quaternion.forRotation phi Y_AXIS) v) Y_AXIS
  = Vector.dot v Y_AXIS.
Proof.
  transitivity
    (Vector.dot (Quaternion.rotate (Quaternion.forRotation phi Y_AXIS) v)
                (Quaternion.rotate (Quaternion.forRotation phi Y_AXIS) Y_AXIS)).
  - rewrite ring_rotate_axis. reflexivity.
  - rewrite QuaternionFacts.dot_rotate.
    rewrite QuaternionFacts.forRotation_unit by apply QuaternionFacts.Y_AXIS_nonzero.
    ring.
Qed.

Lemma dot_body_axis (d : t) (phi : R) (v : Vector.t) :
  Vector.dot (Quaternion.rotate (body d phi) v) (ring_axis d) = Vector.dot v Y_AXIS.
Proof.
  unfold ring_axis, body. rewrite QuaternionFacts.rotate_mult.
  rewrite QuaternionFacts.dot_rotate, wobble_unit, dot_ring_rotate_axis. ring.
Qed.

Lemma dot_body_self (d : t) (phi : R) (v : Vector.t) :
  Vector.dot (Quaternion.rotate (body d phi) v) (Quaternion.rotate (body d phi) v)
  = Vector.dot v v.
Proof. rewrite QuaternionFacts.dot_rotate, body_unit. ring. Qed.

Lemma ring_axis_unit (d : t) : Vector.dot (ring_axis d) (ring_axis d) = 1.
Proof.
  unfold ring_axis. rewrite QuaternionFacts.dot_rotate, wobble_unit.
  unfold Y_AXIS, Vector.dot; cbn [Vector.x Vector.y Vector.z]. ring.
Qed.

(** The distance of a sampled point from the ring axis, in closed form. *)
Lemma axis_distance_surface (d : t) (phi t : R) :
  axis_distance (surface d phi t) (ring_axis d) = Rabs (R2 d + R1 d * cos t).
Proof.
  unfold axis_distance, Vector.norm, surface.
  rewrite local_offset, VectorFacts.cross_square.
  rewrite dot_body_self, dot_body_axis, ring_axis_unit.
  rewrite <- sqrt_Rsqr_abs. f_equal.
  unfold Rsqr, Y_AXIS, Vector.dot; cbn [Vector.x Vector.y Vector.z]. ring.
Qed.

(** The centre line of the tube is perpendicular to the ring axis. *)
Lemma ring_centre_perpendicular (d : t) (phi : R) :
  Vector.dot (Quaternion.rotate (body d phi) (Vector.scale X_AXIS (R2 d)))
             (ring_axis d) = 0.
Proof.
  rewrite dot_body_axis.
  unfold X_AXIS, Y_AXIS, Vector.dot, Vector.scale; cbn [Vector.x Vector.y Vector.z]. ring.
Qed.

Lemma normal_unit (d : t) (phi t : R) :
  Vector.dot (normal d phi t) (normal d phi t) = 1.
Proof.
  unfold normal. rewrite !QuaternionFacts.dot_rotate, body_unit, rim_unit.
  unfold X_AXIS, Vector.dot; cbn [Vector.x Vector.y Vector.z]. ring.
Qed.

Lemma light_unit : Vector.dot (LIGHT default_donut) (LIGHT default_donut) = 1.
Proof.
  cbn [LIGHT default_donut]. apply VectorFacts.normalize_unit.
  intros H. apply (f_equal Vector.z) in H. cbn [Vector.z] in H. lra.
Qed.

End DonutFacts.

(** C3: when the radii are not negative, every point that the sweep emits for
    angles [phi] and [t], taken before [CENTER] is added, lies at a distance
    between [R2 - R1] and [R2 + R1] from the ring axis of the torus. *)
Theorem surface_point_radius_bound (d : Donut.t) (phi t : R) :
  0 <= Donut.R1 d -> 0 <= Donut.R2 d ->
  Donut.donut d phi t = Vector.add (Donut.surface d phi t) (Donut.CENTER d)
  /\ Donut.R2 d - Donut.R1 d
     <= Donut.axis_distance (Donut.surface d phi t) (Donut.ring_axis d)
     <= Donut.R2 d + Donut.R1 d.
Proof.
  intros H1 H2. split; [reflexivity |].
  rewrite DonutFacts.axis_distance_surface.
  pose proof (COS_bound t) as [Hlo Hhi].
  assert (Hl : - Donut.R1 d <= Donut.R1 d * cos t) by nra.
  assert (Hu : Donut.R1 d * cos t <= Donut.R1 d) by nra.
  split.
  - apply Rle_trans with (Donut.R2 d + Donut.R1 d * cos t); [lra | apply Rle_abs].
  - apply Rabs_le. lra.
Qed.

Lemma surface_point_radius_bound_witness :
  Donut.donut default_donut 1 2
  = Vector.add (Donut.surface default_donut 1 2) (Donut.CENTER default_donut)
  /\ Donut.R2 default_donut - Donut.R1 default_donut
     <= Donut.axis_distance (Donut.surface default_donut 1 2)
                            (Donut.ring_axis default_donut)
     <= Donut.R2 default_donut + Donut.R1 default_donut.
Proof.
  apply (surface_point_radius_bound default_donut 1 2); simpl; lra.
Defined.

(** C4: for a unit light direction and a unit normal [n], with
    [MAX_COLOR = paletteSize - 1] a natural number, the shading level
    [max(0, round(-L.n * MAX_COLOR))] is an integer in [[0, paletteSize - 1]],
    and [plot] does not reject it at its palette check. *)
Theorem shading_level_in_palette (d : Donut.t) (n : Vector.t) (m : Z) :
  Vector.dot (Donut.LIGHT d) (Donut.LIGHT d) = 1 ->
  Vector.dot n n = 1 ->
  (0 <= m)%Z ->
  Donut.MAX_COLOR d = IZR m ->
  Plotter.palette_length (Donut.plotter d) = Donut.MAX_COLOR d + 1 ->
  (exists k : Z, Donut.shade d n = IZR k /\ (0 <= k <= m)%Z)
  /\ 0 <= Donut.shade d n <= Plotter.palette_length (Donut.plotter d) - 1
  /\ Plotter.bad_color (Donut.plotter d) (Donut.shade d n) = false.
Proof.
  intros HL Hn Hm HM Hpal.
  pose proof (VectorFacts.cauchy_schwarz (Donut.LIGHT d) n) as Hcs.
  rewrite HL, Hn in Hcs.
  set (s := Vector.dot (Donut.LIGHT d) n) in *.
  assert (Hs : -1 <= s <= 1) by nra.
  assert (HmR : 0 <= IZR m) by (apply IZR_le; exact Hm).
  assert (Hv : - s * IZR m <= IZR m) by nra.
  unfold Donut.shade, Math_max. fold s. rewrite HM.
  set (r := Math_round (- s * IZR m)).
  assert (Hr : r <= IZR m) by (apply RoundFacts.Math_round_le; exact Hv).
  assert (Hk : exists k : Z, Rmax 0 r = IZR k /\ (0 <= k <= m)%Z).
  { unfold Rmax. destruct (Rle_dec 0 r) as [Hle | Hgt].
    - exists (Zfloor (- s * IZR m + / 2)). split; [reflexivity |].
      unfold r, Math_round in Hle, Hr.
      split; [apply le_IZR; exact Hle | apply le_IZR; exact Hr].
    - exists 0%Z. split; [reflexivity | lia]. }
  destruct Hk as (k & Hk & Hk0 & Hk1).
  assert (Hb : 0 <= Rmax 0 r <= IZR m).
  { rewrite Hk. split; apply IZR_le; assumption. }
  split; [exists k; auto |].
  rewrite Hpal, HM. split; [lra |].
  unfold Plotter.bad_color. rewrite Hpal, HM.
  rewrite JSFacts.ltb_false, JSFacts.leb_false by lra. reflexivity.
Qed.

Lemma shading_level_in_palette_witness :
  (exists k : Z, Donut.shade default_donut Y_AXIS = IZR k /\ (0 <= k <= 9)%Z)
  /\ 0 <= Donut.shade default_donut Y_AXIS
     <= Plotter.palette_length (Donut.plotter default_donut) - 1
  /\ Plotter.bad_color (Donut.plotter default_donut)
                       (Donut.shade default_donut Y_AXIS) = false.
Proof.
  apply (shading_level_in_palette default_donut Y_AXIS 9).
  - exact DonutFacts.light_unit.
  - unfold Y_AXIS, Vector.dot; simpl; lra.
  - lia.
  - simpl; lra.
  - cbn [Donut.plotter default_donut]. rewrite DefaultFacts.palette_length.
    simpl; lra.
Defined.

(* ================================================================== *)
(** * The frame loop *)

Module LoopFacts.

(** A loop with a positive step and a total body ends within the fuel that
    covers the distance to the bound. *)
Lemma for_loop_total {S : Type} (body : R -> S -> outcome S) (bound inc : R) :
  0 < inc ->
  (forall x s, exists s', body x s = Ok s') ->
  forall (fuel : nat) (x : R) (s : S),
    bound <= x + INR fuel * inc ->
    exists s', for_loop fuel x bound inc body s = Ok s'.
Proof.
  intros Hinc Hbody. induction fuel as [| fuel IH]; intros x s Hfuel.
  - simpl in *. rewrite JSFacts.ltb_false by lra. eauto.
  - cbn [for_loop]. destruct (JS.ltb x bound); [| eauto].
    destruct (Hbody x s) as [s' Hs']. rewrite Hs'. cbn [bind].
    apply IH. rewrite S_INR in Hfuel. lra.
Qed.

(** What every iteration keeps, the loop keeps. *)
Lemma for_loop_invariant {S : Type} (P : S -> Prop)
    (body : R -> S -> outcome S) (bound inc : R) :
  (forall x s s', P s -> body x s = Ok s' -> P s') ->
  forall (fuel : nat) (x : R) (s s' : S),
    P s -> for_loop fuel x bound inc body s = Ok s' -> P s'.
Proof.
  intros Hbody. induction fuel as [| fuel IH]; intros x s s' Hs Hrun.
  - simpl in Hrun. destruct (JS.ltb x bound); [discriminate |].
    inversion Hrun; subst; exact Hs.
  - cbn [for_loop] in Hrun. destruct (JS.ltb x bound).
    + destruct (body x s) as [s1 | |] eqn:E; try discriminate.
      cbn [bind] in Hrun. eapply IH; [eapply Hbody; eauto | exact Hrun].
    + inversion Hrun; subst; exact Hs.
Qed.

Import Donut.

Lemma tube_sweep_total (fuel : nat) (d : t) (phi : R) (p : Plotter.t) :
  0 < T_INC d -> 2 * PI <= INR fuel * T_INC d ->
  exists p', tube_sweep fuel d phi p = Ok p'.
Proof.
  intros Hinc Hfuel. unfold tube_sweep.
  apply for_loop_total; [exact Hinc | | lra].
  intros x s. unfold sample. eauto.
Qed.

Lemma ring_sweep_total (fuel : nat) (d : t) (p : Plotter.t) :
  0 < T_INC d -> 2 * PI <= INR fuel * T_INC d ->
  0 < PHI_INC d -> 2 * PI <= INR fuel * PHI_INC d ->
  exists p', ring_sweep fuel d p = Ok p'.
Proof.
  intros Ht Hft Hp Hfp. unfold ring_sweep.
  apply for_loop_total; [exact Hp | | lra].
  intros x s. apply tube_sweep_total; assumption.
Qed.

Lemma ring_sweep_size (fuel : nat) (d : t) (p p' : Plotter.t) :
  ring_sweep fuel d p = Ok p' -> Plotter.size p' = Plotter.size p.
Proof.
  unfold ring_sweep.
  apply (for_loop_invariant (fun q => Plotter.size q = Plotter.size p)); [| reflexivity].
  intros phi s s' Hs. unfold tube_sweep.
  apply (for_loop_invariant (fun q => Plotter.size q = Plotter.size p)); [| exact Hs].
  intros x q q' Hq Hsample. unfold sample in Hsample. inversion Hsample; subst.
  destruct (PlotterFacts.plot_cases q (donut d phi x) (color d phi x))
    as [-> | (zb & pts & ->)]; exact Hq.
Qed.

(** A draw pass ends, and leaves the animation state alone. *)
Lemma draw_total (fuel : nat) (d : t) (p0 : Plotter.t) :
  0 < T_INC d -> 2 * PI <= INR fuel * T_INC d ->
  0 < PHI_INC d -> 2 * PI <= INR fuel * PHI_INC d ->
  Plotter.reset (plotter d) = Ok p0 ->
  exists d', draw fuel d = Ok d'
             /\ a d' = a d /\ b d' = b d /\ lastTs d' = lastTs d.
Proof.
  intros Ht Hft Hp Hfp Hreset. unfold draw.
  destruct (ring_sweep_total fuel d (plotter d) Ht Hft Hp Hfp) as [p Hsweep].
  rewrite Hsweep. cbn [bind].
  pose proof (ring_sweep_size fuel d (plotter d) p Hsweep) as Hsize.
  unfold render.
  assert (Hr : exists p', Plotter.reset p = Ok p').
  { unfold Plotter.reset in *. rewrite Hsize.
    destruct (@JS.new_Array R (Plotter.size (plotter d) * Plotter.size (plotter d)));
      try discriminate.
    destruct (@JS.new_Array Pixel.t (Plotter.size (plotter d) * Plotter.size (plotter d)));
      try discriminate.
    cbn [bind]. eauto. }
  destruct Hr as [p' Hp']. rewrite Hp'. cbn [bind].
  eexists; split; [reflexivity |]. repeat split; reflexivity.
Qed.

(** The step of the animation state made by [update]. *)
Lemma update_step (fuel : nat) (d d' : t) (ts : R) :
  update fuel d ts = Ok d' ->
  let dt := (ts - JS.or_else (lastTs d) ts) * FPS d / 1000 in
  a d' = a d + 0.07 * dt /\ b d' = b d + 0.03 * dt /\ lastTs d' = Some ts.
Proof.
  unfold update, draw. intros H.
  destruct (ring_sweep fuel _ _) as [p | |]; try discriminate.
  cbn [bind] in H. destruct (render p) as [p' | |]; try discriminate.
  cbn [bind] in H. inversion H; subst. cbn. repeat split; reflexivity.
Qed.

End LoopFacts.

Module UpdateFacts.
Import Donut.

Lemma default_fuel (d : t) :
  T_INC d = PI / 80 -> PHI_INC d = PI / 160 ->
  0 < T_INC d /\ 2 * PI <= INR 320 * T_INC d
  /\ 0 < PHI_INC d /\ 2 * PI <= INR 320 * PHI_INC d.
Proof.
  intros -> ->. pose proof PI_RGT_0 as Hpi.
  rewrite INR_IZR_INZ. change (Z.of_nat 320) with 320%Z.
  repeat split; lra.
Qed.

(** With the default sweep steps 320 iterations are enough for [update]. *)
Lemma update_total (d : t) (ts : R) (p0 : Plotter.t) :
  T_INC d = PI / 80 -> PHI_INC d = PI / 160 ->
  Plotter.reset (plotter d) = Ok p0 ->
  exists d', update 320 d ts = Ok d'.
Proof.
  intros Ht Hp Hreset. unfold update.
  set (d1 := with_time d _ _ _).
  destruct (default_fuel d1 Ht Hp) as (H1 & H2 & H3 & H4).
  destruct (LoopFacts.draw_total 320 d1 p0 H1 H2 H3 H4 Hreset) as (d' & Hd' & _).
  eauto.
Qed.

(** A stored timestamp other than 0 is used as it is: the angles advance by
    the elapsed time. *)
Lemma update_after_nonzero (fuel : nat) (d d' : t) (t0 ts : R) :
  lastTs d = Some t0 -> t0 <> 0 ->
  update fuel d ts = Ok d' ->
  a d' = a d + 0.07 * ((ts - t0) * FPS d / 1000)
  /\ b d' = b d + 0.03 * ((ts - t0) * FPS d / 1000).
Proof.
  intros Hl Ht0 Hup. apply LoopFacts.update_step in Hup.
  rewrite Hl in Hup. cbn [JS.or_else] in Hup.
  rewrite (JSFacts.eqb_false t0 0 Ht0) in Hup.
  destruct Hup as (Ha & Hb & _). split; assumption.
Qed.

(** The first tick, with no stored timestamp, advances nothing. *)
Lemma update_first (fuel : nat) (d d' : t) (ts : R) :
  lastTs d = None -> update fuel d ts = Ok d' -> a d' = a d /\ b d' = b d.
Proof.
  intros Hl Hup. apply LoopFacts.update_step in Hup.
  rewrite Hl in Hup. cbn [JS.or_else] in Hup.
  destruct Hup as (Ha & Hb & _). rewrite Ha, Hb. split; lra.
Qed.

End UpdateFacts.

(** C1: what the code does on the claim's input.  With the stored timestamp
    equal to 0 and [FPS = 60], [update(16.67)] takes the stored 0 for a
    missing timestamp ([this.lastTs || ts]): the elapsed time and [dt] are 0,
    and the angles [a] and [b] keep their values instead of advancing by 0.07
    and 0.03. *)
Theorem update_after_timestamp_zero :
  Donut.FPS default_donut = 60
  /\ JS.or_else (Some 0) 16.67 = 16.67
  /\ exists d',
       Donut.update 320 (Donut.with_time default_donut (Some 0) 1 1) 16.67 = Ok d'
       /\ Donut.a d' = 1 /\ Donut.b d' = 1 /\ Donut.lastTs d' = Some 16.67.
Proof.
  split; [reflexivity |].
  assert (Hor : JS.or_else (Some 0) 16.67 = 16.67).
  { cbn [JS.or_else]. rewrite JSFacts.eqb_true; reflexivity. }
  split; [exact Hor |].
  destruct (UpdateFacts.update_total
              (Donut.with_time default_donut (Some 0) 1 1) 16.67 default_plotter)
    as [d' Hd']; [reflexivity | reflexivity | exact DefaultFacts.reset |].
  exists d'. split; [exact Hd' |].
  apply LoopFacts.update_step in Hd'.
  cbn [Donut.lastTs Donut.a Donut.b Donut.FPS Donut.with_time default_donut] in Hd'.
  rewrite Hor in Hd'. destruct Hd' as (Ha & Hb & Hl).
  rewrite Ha, Hb. repeat split; trivial; lra.
Qed.

(** What the claim expects, met when the stored timestamp is not 0: from a
    stored 1000 the tick at 1016.67 gives [dt = 1.0002], and [a] and [b]
    advance by [0.07 * dt] and [0.03 * dt]. *)
Lemma update_after_timestamp_1000 :
  exists d',
    Donut.update 320 (Donut.with_time default_donut (Some 1000) 1 1) 1016.67 = Ok d'
    /\ Donut.a d' = 1 + 0.07 * 1.0002 /\ Donut.b d' = 1 + 0.03 * 1.0002.
Proof.
  destruct (UpdateFacts.update_total
              (Donut.with_time default_donut (Some 1000) 1 1) 1016.67 default_plotter)
    as [d' Hd']; [reflexivity | reflexivity | exact DefaultFacts.reset |].
  exists d'. split; [exact Hd' |].
  assert (Hnz : 1000 <> 0) by lra.
  destruct (UpdateFacts.update_after_nonzero 320
              (Donut.with_time default_donut (Some 1000) 1 1) d' 1000 1016.67
              eq_refl Hnz Hd') as [Ha Hb].
  cbn [Donut.a Donut.b Donut.FPS Donut.with_time default_donut] in Ha, Hb.
  rewrite Ha, Hb. split; lra.
Qed.

(** The constructor with the default options succeeds and gives
    [default_donut]. *)
Lemma new_default : Donut.new Donut.default_config = Ok default_donut.
Proof.
  unfold Donut.new, Donut.default_config, makePalette.
  cbn [Donut.cfg_size Donut.cfg_scale Donut.cfg_distance Donut.cfg_colors].
  assert (Hn : Plotter.new 80 8 30 default_palette = Ok default_plotter)
    by exact DefaultFacts.reset.
  rewrite (JSFacts.array_length_IZR 10) by lia. cbn [bind].
  change (Z.to_nat 10) with 10%nat. fold default_palette.
  rewrite Hn. reflexivity.
Qed.

(** What the constructor fixes, for any options it accepts. *)
Lemma new_fields (cfg : Donut.Config) (d : Donut.t) :
  Donut.new cfg = Ok d ->
  Vector.dot (Donut.LIGHT d) (Donut.LIGHT d) = 1
  /\ Donut.MAX_COLOR d = Donut.cfg_colors cfg - 1
  /\ Plotter.palette_length (Donut.plotter d) = Donut.cfg_colors cfg
  /\ Plotter.configured (Donut.cfg_size cfg) (Donut.plotter d)
  /\ Donut.R1 d = 1 /\ Donut.R2 d = 2
  /\ Donut.lastTs d = None /\ Donut.FPS d = 60.
Proof.
  unfold Donut.new, makePalette.
  destruct (JS.array_length (Donut.cfg_colors cfg)) as [n | |] eqn:En; try discriminate.
  cbn [bind].
  destruct (Plotter.new _ _ _ _) as [p | |] eqn:Ep; try discriminate.
  cbn [bind]. intros H; inversion H; subst; clear H.
  cbn [Donut.LIGHT Donut.MAX_COLOR Donut.plotter Donut.R1 Donut.R2 Donut.lastTs Donut.FPS].
  split.
  { apply VectorFacts.normalize_unit.
    intros H. apply (f_equal Vector.z) in H. cbn [Vector.z] in H. lra. }
  split; [reflexivity |]. split.
  { pose proof Ep as Hp. apply PlotterFacts.reset_Ok in Hp. subst p.
    unfold Plotter.palette_length. cbn [Plotter.palette Plotter.with_buffers].
    rewrite length_map, length_seq. symmetry. apply JSFacts.array_length_Ok, En. }
  split; [apply (PlotterFacts.configured_new _ _ _ _ _ Ep) |].
  repeat split; reflexivity.
Qed.

(* ================================================================== *)
(** * Further properties of the vector and quaternion algebra *)

Module AlgebraFacts.
Import Quaternion.

Ltac by_components :=
  apply VectorFacts.eq_components; unfold_algebra; ring.

Lemma rotate_add (q : t) (u v : Vector.t) :
  rotate q (Vector.add u v) = Vector.add (rotate q u) (rotate q v).
Proof.
  destruct q as [s [a b c]], u as [ux uy uz], v as [vx vy vz]. by_components.
Qed.

Lemma rotate_scale (q : t) (v : Vector.t) (k : R) :
  rotate q (Vector.scale v k) = Vector.scale (rotate q v) k.
Proof.
  destruct q as [s [a b c]], v as [vx vy vz]. by_components.
Qed.

Lemma cross_rotate (q : t) (u v : Vector.t) :
  Vector.cross (rotate q u) (rotate q v)
  = Vector.scale (rotate q (Vector.cross u v)) (norm2 q).
Proof.
  destruct q as [s [a b c]], u as [ux uy uz], v as [vx vy vz]. by_components.
Qed.

Lemma scale_one (v : Vector.t) : Vector.scale v 1 = v.
Proof. destruct v as [vx vy vz]. by_components. Qed.

Lemma scale_scale (v : Vector.t) (j k : R) :
  Vector.scale (Vector.scale v j) k = Vector.scale v (j * k).
Proof. destruct v as [vx vy vz]. by_components. Qed.

Lemma conjugate_mult_self (q : t) :
  mult (conjugate q) q = mk (norm2 q) (Vector.mk 0 0 0).
Proof.
  destruct q as [s [a b c]]. unfold_algebra. f_equal; [ring |].
  apply VectorFacts.eq_components; cbn [Vector.x Vector.y Vector.z]; ring.
Qed.

Lemma rotate_scalar (s : R) (v : Vector.t) :
  rotate (mk s (Vector.mk 0 0 0)) v = Vector.scale v (s * s).
Proof. destruct v as [vx vy vz]. by_components. Qed.

(** Undoing a sandwich product by the conjugate. *)
Lemma rotate_conjugate (q : t) (v : Vector.t) :
  rotate (conjugate q) (rotate q v) = Vector.scale v (norm2 q * norm2 q).
Proof.
  rewrite <- QuaternionFacts.rotate_mult, conjugate_mult_self.
  apply rotate_scalar.
Qed.

(** A quaternion whose vector part runs along [n] leaves [n] in place, up to
    its squared length. *)
Lemma rotate_own_direction (c s : R) (n : Vector.t) :
  rotate (mk c (Vector.scale n s)) n
  = Vector.scale n (c * c + s * s * Vector.dot n n).
Proof. destruct n as [a b e]. by_components. Qed.

Lemma norm_pos (v : Vector.t) : v <> Vector.mk 0 0 0 -> 0 < Vector.norm v.
Proof. intros H. apply sqrt_lt_R0, VectorFacts.dot_self_pos, H. Qed.

Lemma normalize_scale_back (v : Vector.t) :
  v <> Vector.mk 0 0 0 -> Vector.scale (Vector.normalize v) (Vector.norm v) = v.
Proof.
  intros H. pose proof (norm_pos v H) as Hn.
  unfold Vector.normalize. fold (Vector.norm v). rewrite scale_scale.
  replace (1 / Vector.norm v * Vector.norm v) with 1 by (field; lra).
  apply scale_one.
Qed.

Lemma conjugate_forRotation (theta : R) (axis : Vector.t) :
  conjugate (forRotation theta axis) = forRotation (- theta) axis.
Proof.
  unfold forRotation, conjugate; cbn [scalar vector].
  replace (- theta / 2) with (- (theta / 2)) by field.
  rewrite cos_neg, sin_neg, scale_scale. do 2 f_equal. ring.
Qed.

End AlgebraFacts.

(** X1: the cross product is perpendicular to both of its operands, changes
    sign when they are swapped, and its squared length is
    [|u|^2 |v|^2 - (u.v)^2]. *)
Theorem cross_perpendicular_antisymmetric (u v : Vector.t) :
  Vector.dot (Vector.cross u v) u = 0
  /\ Vector.dot (Vector.cross u v) v = 0
  /\ Vector.cross v u = Vector.scale (Vector.cross u v) (-1)
  /\ Vector.dot (Vector.cross u v) (Vector.cross u v)
     = Vector.dot u u * Vector.dot v v - Vector.dot u v * Vector.dot u v.
Proof.
  destruct u as [ux uy uz], v as [vx vy vz].
  unfold Vector.dot, Vector.cross, Vector.scale; cbn [Vector.x Vector.y Vector.z].
  repeat split; try ring.
  apply VectorFacts.eq_components; cbn [Vector.x Vector.y Vector.z]; ring.
Qed.

(** X2: [normalize] of a nonzero vector has length 1, points the way the
    vector does (scaling it by the vector's length gives the vector back), and
    does not depend on the length of its argument. *)
Theorem normalize_unit_direction (v : Vector.t) (k : R) :
  v <> Vector.mk 0 0 0 -> 0 < k ->
  Vector.norm (Vector.normalize v) = 1
  /\ Vector.scale (Vector.normalize v) (Vector.norm v) = v
  /\ Vector.normalize (Vector.scale v k) = Vector.normalize v.
Proof.
  intros Hv Hk. split; [| split].
  - unfold Vector.norm. rewrite VectorFacts.normalize_unit by exact Hv. apply sqrt_1.
  - apply AlgebraFacts.normalize_scale_back, Hv.
  - pose proof (AlgebraFacts.norm_pos v Hv) as Hn.
    unfold Vector.normalize. rewrite AlgebraFacts.scale_scale. f_equal.
    assert (Hd : Vector.dot (Vector.scale v k) (Vector.scale v k)
                 = Vector.dot v v * (k * k)).
    { destruct v as [a b c]. unfold Vector.dot, Vector.scale;
        cbn [Vector.x Vector.y Vector.z]; ring. }
    rewrite Hd, sqrt_mult by (try apply VectorFacts.dot_self_nonneg; nra).
    rewrite (sqrt_square k) by lra. fold (Vector.norm v). field. lra.
Qed.

Lemma normalize_unit_direction_witness :
  Vector.norm (Vector.normalize (Vector.mk 3 4 0)) = 1
  /\ Vector.scale (Vector.normalize (Vector.mk 3 4 0)) (Vector.norm (Vector.mk 3 4 0))
     = Vector.mk 3 4 0
  /\ Vector.normalize (Vector.scale (Vector.mk 3 4 0) 2)
     = Vector.normalize (Vector.mk 3 4 0).
Proof.
  apply (normalize_unit_direction (Vector.mk 3 4 0) 2); [| lra].
  intros H. apply (f_equal Vector.x) in H. simpl in H. lra.
Defined.

(** X3: the quaternion product is associative, the squared length of a
    product is the product of the squared lengths, conjugation reverses a
    product and is its own inverse, and a quaternion times its conjugate is
    its squared length. *)
Theorem quaternion_product_laws (p q r : Quaternion.t) :
  Quaternion.mult (Quaternion.mult p q) r = Quaternion.mult p (Quaternion.mult q r)
  /\ Quaternion.norm2 (Quaternion.mult p q) = Quaternion.norm2 p * Quaternion.norm2 q
  /\ Quaternion.conjugate (Quaternion.mult p q)
     = Quaternion.mult (Quaternion.conjugate q) (Quaternion.conjugate p)
  /\ Quaternion.conjugate (Quaternion.conjugate q) = q
  /\ Quaternion.mult q (Quaternion.conjugate q)
     = Quaternion.mk (Quaternion.norm2 q) (Vector.mk 0 0 0).
Proof.
  split; [apply QuaternionFacts.mult_assoc |].
  split; [apply QuaternionFacts.norm2_mult |].
  split; [apply QuaternionFacts.conjugate_mult |].
  destruct q as [s [a b c]]. split.
  - Quaternion.unfold_algebra. do 2 f_equal; ring.
  - Quaternion.unfold_algebra. f_equal; [ring |].
    apply VectorFacts.eq_components; cbn [Vector.x Vector.y Vector.z]; ring.
Qed.

(** X4: rotating by a product applies the right factor first:
    [p.mult(q).rotate(v) = p.rotate(q.rotate(v))]. *)
Theorem rotate_by_product (p q : Quaternion.t) (v : Vector.t) :
  Quaternion.rotate (Quaternion.mult p q) v
  = Quaternion.rotate p (Quaternion.rotate q v).
Proof. apply QuaternionFacts.rotate_mult. Qed.

(** X5: [rotate] is linear in the vector, for any quaternion. *)
Theorem rotate_linear (q : Quaternion.t) (u v : Vector.t) (k : R) :
  Quaternion.rotate q (Vector.add u v)
  = Vector.add (Quaternion.rotate q u) (Quaternion.rotate q v)
  /\ Quaternion.rotate q (Vector.scale v k) = Vector.scale (Quaternion.rotate q v) k.
Proof.
  split; [apply AlgebraFacts.rotate_add | apply AlgebraFacts.rotate_scale].
Qed.

(** X6: the rotation by angle 0 about a nonzero axis is the identity. *)
Theorem rotation_by_zero (axis v : Vector.t) :
  axis <> Vector.mk 0 0 0 ->
  Quaternion.rotate (Quaternion.forRotation 0 axis) v = v.
Proof.
  intros _. unfold Quaternion.forRotation.
  replace (0 / 2) with 0 by field. rewrite cos_0, sin_0.
  destruct (Vector.normalize axis) as [a b c], v as [vx vy vz].
  AlgebraFacts.by_components.
Qed.

Lemma rotation_by_zero_witness :
  Quaternion.rotate (Quaternion.forRotation 0 Y_AXIS) (Vector.mk 1 2 3)
  = Vector.mk 1 2 3.
Proof.
  apply (rotation_by_zero Y_AXIS (Vector.mk 1 2 3)).
  intros H. apply (f_equal Vector.y) in H. simpl in H. lra.
Defined.

(** X7: the conjugate of [forRotation(theta, axis)] is
    [forRotation(-theta, axis)], and for a nonzero axis it undoes the
    rotation. *)
Theorem rotation_undone_by_conjugate (theta : R) (axis v : Vector.t) :
  axis <> Vector.mk 0 0 0 ->
  let q := Quaternion.forRotation theta axis in
  Quaternion.conjugate q = Quaternion.forRotation (- theta) axis
  /\ Quaternion.rotate (Quaternion.conjugate q) (Quaternion.rotate q v) = v
  /\ Quaternion.rotate (Quaternion.forRotation (- theta) axis) (Quaternion.rotate q v) = v.
Proof.
  intros Hax q.
  assert (Hback : Quaternion.rotate (Quaternion.conjugate q) (Quaternion.rotate q v) = v).
  { rewrite AlgebraFacts.rotate_conjugate. unfold q.
    rewrite QuaternionFacts.forRotation_unit by exact Hax.
    replace (1 * 1) with 1 by ring. apply AlgebraFacts.scale_one. }
  split; [apply AlgebraFacts.conjugate_forRotation |].
  split; [exact Hback |].
  rewrite <- AlgebraFacts.conjugate_forRotation. exact Hback.
Qed.

Lemma rotation_undone_by_conjugate_witness :
  Quaternion.rotate (Quaternion.forRotation (- 1) Z_AXIS)
    (Quaternion.rotate (Quaternion.forRotation 1 Z_AXIS) (Vector.mk 1 2 3))
  = Vector.mk 1 2 3.
Proof.
  apply (rotation_undone_by_conjugate 1 Z_AXIS (Vector.mk 1 2 3)).
  intros H. apply (f_equal Vector.z) in H. simpl in H. lra.
Defined.

(** X8: a rotation about a nonzero axis leaves the axis itself in place. *)
Theorem rotation_fixes_axis (theta : R) (axis : Vector.t) :
  axis <> Vector.mk 0 0 0 ->
  Quaternion.rotate (Quaternion.forRotation theta axis) axis = axis.
Proof.
  intros Hax.
  rewrite <- (AlgebraFacts.normalize_scale_back axis Hax) at 2 3.
  rewrite AlgebraFacts.rotate_scale. f_equal.
  unfold Quaternion.forRotation.
  rewrite AlgebraFacts.rotate_own_direction.
  rewrite VectorFacts.normalize_unit by exact Hax.
  pose proof (sin2_cos2 (theta / 2)) as H. unfold Rsqr in H.
  replace (cos (theta / 2) * cos (theta / 2) + sin (theta / 2) * sin (theta / 2) * 1)
    with 1 by lra.
  apply AlgebraFacts.scale_one.
Qed.

Lemma rotation_fixes_axis_witness :
  Quaternion.rotate (Quaternion.forRotation 1 (Vector.mk 0 (-1) 1)) (Vector.mk 0 (-1) 1)
  = Vector.mk 0 (-1) 1.
Proof.
  apply (rotation_fixes_axis 1 (Vector.mk 0 (-1) 1)).
  intros H. apply (f_equal Vector.z) in H. simpl in H. lra.
Defined.

(** X9: a rotation about a nonzero axis keeps scalar products, hence angles,
    and commutes with the cross product, hence keeps orientation. *)
Theorem rotation_preserves_dot_and_cross (theta : R) (axis u v : Vector.t) :
  axis <> Vector.mk 0 0 0 ->
  let q := Quaternion.forRotation theta axis in
  Vector.dot (Quaternion.rotate q u) (Quaternion.rotate q v) = Vector.dot u v
  /\ Vector.cross (Quaternion.rotate q u) (Quaternion.rotate q v)
     = Quaternion.rotate q (Vector.cross u v).
Proof.
  intros Hax q. unfold q. split.
  - rewrite QuaternionFacts.dot_rotate, QuaternionFacts.forRotation_unit by exact Hax.
    ring.
  - rewrite AlgebraFacts.cross_rotate, QuaternionFacts.forRotation_unit by exact Hax.
    apply AlgebraFacts.scale_one.
Qed.

Lemma rotation_preserves_dot_and_cross_witness :
  Vector.dot (Quaternion.rotate (Quaternion.forRotation 1 X_AXIS) Y_AXIS)
             (Quaternion.rotate (Quaternion.forRotation 1 X_AXIS) Z_AXIS)
  = Vector.dot Y_AXIS Z_AXIS
  /\ Vector.cross (Quaternion.rotate (Quaternion.forRotation 1 X_AXIS) Y_AXIS)
                  (Quaternion.rotate (Quaternion.forRotation 1 X_AXIS) Z_AXIS)
     = Quaternion.rotate (Quaternion.forRotation 1 X_AXIS) (Vector.cross Y_AXIS Z_AXIS).
Proof.
  apply (rotation_preserves_dot_and_cross 1 X_AXIS Y_AXIS Z_AXIS).
  intros H. apply (f_equal Vector.x) in H. simpl in H. lra.
Defined.

(** X10: [forRotation] turns by the whole angle, counter-clockwise seen from
    the tip of the axis: about [Z_AXIS] it takes [X_AXIS] to
    [(cos theta, sin theta, 0)], about [X_AXIS] it takes [Y_AXIS] to
    [(0, cos theta, sin theta)], and about [Y_AXIS] it takes [Z_AXIS] to
    [(sin theta, 0, cos theta)]. *)
Theorem rotation_of_basis (theta : R) :
  Quaternion.rotate (Quaternion.forRotation theta Z_AXIS) X_AXIS
  = Vector.mk (cos theta) (sin theta) 0
  /\ Quaternion.rotate (Quaternion.forRotation theta X_AXIS) Y_AXIS
     = Vector.mk 0 (cos theta) (sin theta)
  /\ Quaternion.rotate (Quaternion.forRotation theta Y_AXIS) Z_AXIS
     = Vector.mk (sin theta) 0 (cos theta).
Proof.
  rewrite DonutFacts.forRotation_X, DonutFacts.forRotation_Y, DonutFacts.forRotation_Z.
  rewrite <- (DonutFacts.half_angle_cos theta), <- (DonutFacts.half_angle_sin theta).
  unfold X_AXIS, Y_AXIS, Z_AXIS.
  repeat split; AlgebraFacts.by_components.
Qed.

(** X11: adding a full turn to the angle changes the sign of the quaternion
    and not the rotation. *)
Theorem rotation_full_turn (theta : R) (axis v : Vector.t) :
  Quaternion.scalar (Quaternion.forRotation (theta + 2 * PI) axis)
  = - Quaternion.scalar (Quaternion.forRotation theta axis)
  /\ Quaternion.vector (Quaternion.forRotation (theta + 2 * PI) axis)
     = Vector.scale (Quaternion.vector (Quaternion.forRotation theta axis)) (-1)
  /\ Quaternion.rotate (Quaternion.forRotation (theta + 2 * PI) axis) v
     = Quaternion.rotate (Quaternion.forRotation theta axis) v.
Proof.
  unfold Quaternion.forRotation.
  replace ((theta + 2 * PI) / 2) with (theta / 2 + PI) by field.
  rewrite neg_cos, neg_sin. cbn [Quaternion.scalar Quaternion.vector].
  split; [reflexivity |]. split.
  - rewrite AlgebraFacts.scale_scale. f_equal. ring.
  - destruct (Vector.normalize axis) as [a b c], v as [vx vy vz].
    AlgebraFacts.by_components.
Qed.

(* ================================================================== *)
(** * Further properties of the plotter *)

Module BufferFacts.
Import Plotter.

Lemma plot_config (p : t) (pt : Vector.t) (c : R) :
  size (plot p pt c) = size p /\ bounds (plot p pt c) = bounds p
  /\ scale (plot p pt c) = scale p /\ distance (plot p pt c) = distance p
  /\ palette (plot p pt c) = palette p.
Proof.
  destruct (PlotterFacts.plot_cases p pt c) as [-> | (zb & pts & ->)];
    repeat split; reflexivity.
Qed.

Lemma target_plot (p : t) (pt' : Vector.t) (c' : R) (pt : Vector.t) (c : R) :
  target (plot p pt' c') pt c = target p pt c.
Proof.
  unfold target. rewrite PlotterFacts.accepted_plot.
  destruct (accepted p pt c) as [[xp yp] |]; trivial.
  destruct (PlotterFacts.plot_cases p pt' c') as [-> | (zb & pts & ->)]; reflexivity.
Qed.

(** The depth buffer after one call, cell by cell. *)
Lemma plot_zbuf (p : t) (pt : Vector.t) (c : R) (k : JS.number) :
  JS.get (zbuf (plot p pt c)) k =
  match target p pt c with
  | Some idx =>
      if JS.key_eqb idx k then Depth.closer (JS.get (zbuf p) k) (Vector.z pt)
      else JS.get (zbuf p) k
  | None => JS.get (zbuf p) k
  end.
Proof.
  rewrite PlotterFacts.plot_unfold. unfold target.
  destruct (accepted p pt c) as [[xp yp] |]; [| reflexivity].
  destruct (JS.key_eqb (index p xp yp) k) eqn:E.
  - apply JSFacts.key_eqb_eq in E. subst k. unfold Depth.closer.
    destruct (JS.cell_le _ _); [reflexivity |].
    cbn [zbuf with_buffers]. apply JSFacts.get_set_same.
  - destruct (JS.cell_le _ _); [reflexivity |].
    cbn [zbuf with_buffers]. apply JSFacts.get_set_other.
    intros H. apply JSFacts.key_eqb_eq in H. congruence.
Qed.

Lemma closer_cases (cell : option R) (z : R) :
  (exists z', cell = Some z' /\ z' <= z /\ Depth.closer cell z = Some z')
  \/ (Depth.closer cell z = Some z
      /\ forall z', cell = Some z' -> z < z').
Proof.
  unfold Depth.closer. destruct cell as [z' |]; cbn [JS.cell_le].
  - destruct (JS.leb z' z) eqn:E.
    + left. exists z'. apply JSFacts.leb_spec in E. auto.
    + right. split; [reflexivity |]. intros z'' H. inversion H; subst.
      destruct (Rlt_le_dec z z'') as [Hlt | Hle]; trivial.
      apply JSFacts.leb_true in Hle. congruence.
  - right. split; [reflexivity | discriminate].
Qed.

Lemma project_rounded (p : t) (u pz : R) : Depth.rounded (project p u pz).
Proof.
  unfold project. destruct (JS.div (distance p * u) pz); cbn; trivial.
  eexists; reflexivity.
Qed.

Lemma in_step_plot (p : t) (pt : Vector.t) (c : R) :
  Depth.in_step p -> Depth.in_step (plot p pt c).
Proof.
  intros Hp. rewrite PlotterFacts.plot_unfold.
  destruct (accepted p pt c) as [[xp yp] |] eqn:A; [| exact Hp].
  destruct (JS.cell_le _ _); [exact Hp |].
  assert (Hacc : bad_color p c = false /\ out_of_bounds p xp = false
                 /\ out_of_bounds p yp = false
                 /\ Depth.rounded xp /\ Depth.rounded yp).
  { unfold accepted in A.
    destruct (bad_color p c); [discriminate |].
    destruct (out_of_bounds p (project p (Vector.x pt) (Vector.z pt))) eqn:Ex;
      [discriminate |].
    destruct (out_of_bounds p (project p (Vector.y pt) (Vector.z pt))) eqn:Ey;
      [discriminate |].
    inversion A; subst. repeat split; trivial; apply project_rounded. }
  intros k. cbn [zbuf points with_buffers].
  destruct (JS.key_eqb (index p xp yp) k) eqn:E.
  - apply JSFacts.key_eqb_eq in E. subst k.
    rewrite !JSFacts.get_set_same. split; [split; discriminate |].
    intros px H. inversion H; subst. cbn [Pixel.x Pixel.y Pixel.c]. tauto.
  - assert (Hk : index p xp yp <> k)
      by (intros H; apply JSFacts.key_eqb_eq in H; congruence).
    rewrite !JSFacts.get_set_other by exact Hk. apply (Hp k).
Qed.

Lemma in_step_empty (p : t) : Depth.in_step (with_buffers p JS.empty JS.empty).
Proof.
  intros k. cbn. split; [tauto | discriminate].
Qed.

Lemma plot_all_app (p : t) (l l' : list (Vector.t * R)) :
  Render.plot_all p (l ++ l') = Render.plot_all (Render.plot_all p l) l'.
Proof. apply fold_left_app. Qed.

Lemma plot_all_invariant (P : t -> Prop) :
  (forall p pt c, P p -> P (plot p pt c)) ->
  forall l p, P p -> P (Render.plot_all p l).
Proof.
  intros Hstep. induction l as [| s l IH]; intros p Hp; [exact Hp |].
  cbn. apply IH, Hstep, Hp.
Qed.

Lemma target_plot_all (l : list (Vector.t * R)) (p : t) (pt : Vector.t) (c : R) :
  target (Render.plot_all p l) pt c = target p pt c.
Proof.
  revert p. induction l as [| s l IH]; intros p; [reflexivity |].
  change (Render.plot_all p (s :: l))
    with (Render.plot_all (plot p (fst s) (snd s)) l).
  rewrite IH. apply target_plot.
Qed.

(** The depth buffer after a run of calls, cell by cell. *)
Lemma plot_all_zbuf (l : list (Vector.t * R)) (p : t) (k : JS.number) :
  JS.get (zbuf (Render.plot_all p l)) k =
  fold_left (fun cell s => if match Depth.target_of p s with
                              | Some idx => JS.key_eqb idx k
                              | None => false
                              end
                           then Depth.closer cell (Depth.depth_of s) else cell)
            l (JS.get (zbuf p) k).
Proof.
  revert p. induction l as [| s l IH]; intros p; [reflexivity |].
  change (Render.plot_all p (s :: l))
    with (Render.plot_all (plot p (fst s) (snd s)) l).
  cbn [fold_left]. rewrite IH, plot_zbuf. unfold Depth.target_of.
  assert (Ht : forall s', target (plot p (fst s) (snd s)) (fst s') (snd s')
                          = target p (fst s') (snd s'))
    by (intros s'; apply target_plot).
  assert (Hf : forall (l0 : list (Vector.t * R)) (c0 : option R),
             fold_left (fun cell s0 =>
                          if match target (plot p (fst s) (snd s)) (fst s0) (snd s0) with
                             | Some idx => JS.key_eqb idx k
                             | None => false
                             end
                          then Depth.closer cell (Depth.depth_of s0) else cell) l0 c0
             = fold_left (fun cell s0 =>
                          if match target p (fst s0) (snd s0) with
                             | Some idx => JS.key_eqb idx k
                             | None => false
                             end
                          then Depth.closer cell (Depth.depth_of s0) else cell) l0 c0).
  { induction l0 as [| s0 l0 IH0]; intros c0; [reflexivity |].
    cbn [fold_left]. rewrite Ht. apply IH0. }
  rewrite Hf. f_equal.
  destruct (target p (fst s) (snd s)) as [idx |]; [| reflexivity].
  destruct (JS.key_eqb idx k); reflexivity.
Qed.

End BufferFacts.

Module FoldFacts.

Section Cell.
Variable hit : Vector.t * R -> bool.

Lemma step_Some (cell : option R) (s : Vector.t * R) (z0 : R) :
  cell = Some z0 -> exists z, (Depth.step hit) cell s = Some z /\ z <= z0.
Proof.
  intros ->. unfold Depth.step. destruct (hit s); [| exists z0; split; [reflexivity | lra]].
  destruct (BufferFacts.closer_cases (Some z0) (Depth.depth_of s))
    as [(z' & H & Hle & ->) | [-> Hlt]].
  - inversion H; subst. exists z'. split; [reflexivity | lra].
  - exists (Depth.depth_of s). split; [reflexivity |].
    specialize (Hlt z0 eq_refl). lra.
Qed.

Lemma fold_Some (l : list (Vector.t * R)) (z0 : R) :
  exists z, fold_left (Depth.step hit) l (Some z0) = Some z /\ z <= z0.
Proof.
  revert z0. induction l as [| s l IH]; intros z0.
  - exists z0. split; [reflexivity | lra].
  - cbn [fold_left]. destruct (step_Some (Some z0) s z0 eq_refl) as (z1 & -> & H1).
    destruct (IH z1) as (z & Hz & Hle). exists z. split; [exact Hz | lra].
Qed.

(** The cell ends empty exactly when it started empty and was never hit. *)
Lemma fold_None (l : list (Vector.t * R)) (cell : option R) :
  fold_left (Depth.step hit) l cell = None
  <-> cell = None /\ forall s, In s l -> hit s = false.
Proof.
  revert cell. induction l as [| s l IH]; intros cell; cbn [fold_left].
  - split; [intros H; split; [exact H | intros s []] | tauto].
  - rewrite IH. unfold Depth.step. destruct (hit s) eqn:Hs.
    + split.
      * intros [H _]. exfalso.
        destruct (BufferFacts.closer_cases cell (Depth.depth_of s))
          as [(z' & _ & _ & H') | [H' _]]; congruence.
      * intros [_ H]. specialize (H s (or_introl eq_refl)). congruence.
    + split.
      * intros [H1 H2]. split; [exact H1 |]. intros s' [<- | Hin]; auto.
      * intros [H1 H2]. split; [exact H1 |]. intros s' Hin. apply H2. now right.
Qed.

(** The depth that the cell ends with is a lower bound of what it started
    with and of every hit, and it is one of them. *)
Lemma fold_min (l : list (Vector.t * R)) (cell : option R) (z : R) :
  fold_left (Depth.step hit) l cell = Some z ->
  (cell = Some z \/ exists s, In s l /\ hit s = true /\ Depth.depth_of s = z)
  /\ (forall z0, cell = Some z0 -> z <= z0)
  /\ (forall s, In s l -> hit s = true -> z <= Depth.depth_of s).
Proof.
  revert cell. induction l as [| s l IH]; intros cell; cbn [fold_left].
  - intros ->. split; [now left |]. split.
    + intros z0 H; inversion H; lra.
    + intros s [].
  - intros H. destruct (IH _ H) as (Hfrom & Hlow & Hall). clear IH.
    unfold Depth.step in Hfrom, Hlow. split; [| split].
    + destruct Hfrom as [Hc | (s' & Hin & Hh & Hd)].
      * destruct (hit s) eqn:Hs; [| now left].
        destruct (BufferFacts.closer_cases cell (Depth.depth_of s))
          as [(z' & Hcell & _ & Hcl) | [Hcl _]].
        -- left. congruence.
        -- right. exists s. split; [now left |]. split; [exact Hs | congruence].
      * right. exists s'. split; [now right | auto].
    + intros z0 Hcell. destruct (hit s) eqn:Hs; [| apply Hlow, Hcell].
      destruct (BufferFacts.closer_cases cell (Depth.depth_of s))
        as [(z' & Hc & Hle & Hcl) | [Hcl Hlt]].
      * apply Hlow. congruence.
      * specialize (Hlow _ Hcl). specialize (Hlt _ Hcell). lra.
    + intros s' [<- | Hin] Hh; [| apply Hall; assumption].
      rewrite Hh in Hlow.
      destruct (BufferFacts.closer_cases cell (Depth.depth_of s))
        as [(z' & Hc & Hle & Hcl) | [Hcl Hlt]].
      * specialize (Hlow _ Hcl). lra.
      * apply Hlow, Hcl.
Qed.

(** Two depth tests on one cell can be swapped. *)
Lemma step_swap (cell : option R) (s1 s2 : Vector.t * R) :
  (Depth.step hit) ((Depth.step hit) cell s1) s2 = (Depth.step hit) ((Depth.step hit) cell s2) s1.
Proof.
  unfold Depth.step. destruct (hit s1), (hit s2); trivial.
  unfold Depth.closer, Depth.depth_of.
  set (z1 := Vector.z (fst s1)). set (z2 := Vector.z (fst s2)).
  destruct cell as [z |]; cbn [JS.cell_le].
  - destruct (Rle_dec z z1) as [H1 | H1], (Rle_dec z z2) as [H2 | H2].
    + rewrite !(JSFacts.leb_true z z1), !(JSFacts.leb_true z z2) by lra.
      cbn [JS.cell_le]. rewrite JSFacts.leb_true, (JSFacts.leb_true z z1) by lra.
      reflexivity.
    + rewrite (JSFacts.leb_true z z1), (JSFacts.leb_false z z2) by lra.
      cbn [JS.cell_le]. rewrite (JSFacts.leb_false z z2), (JSFacts.leb_true z2 z1) by lra.
      reflexivity.
    + rewrite (JSFacts.leb_false z z1), (JSFacts.leb_true z z2) by lra.
      cbn [JS.cell_le]. rewrite (JSFacts.leb_true z1 z2), (JSFacts.leb_false z z1) by lra.
      reflexivity.
    + rewrite (JSFacts.leb_false z z1), (JSFacts.leb_false z z2) by lra.
      cbn [JS.cell_le].
      destruct (Rle_dec z1 z2) as [H | H].
      * rewrite (JSFacts.leb_true z1 z2) by lra.
        destruct (Rle_dec z2 z1) as [H' | H'].
        -- rewrite (JSFacts.leb_true z2 z1) by lra. f_equal. lra.
        -- rewrite (JSFacts.leb_false z2 z1) by lra. reflexivity.
      * rewrite (JSFacts.leb_false z1 z2), (JSFacts.leb_true z2 z1) by lra.
        reflexivity.
  - destruct (Rle_dec z1 z2) as [H | H].
    + rewrite (JSFacts.leb_true z1 z2) by lra.
      destruct (Rle_dec z2 z1) as [H' | H'].
      * rewrite (JSFacts.leb_true z2 z1) by lra. f_equal. lra.
      * rewrite (JSFacts.leb_false z2 z1) by lra. reflexivity.
    + rewrite (JSFacts.leb_false z1 z2), (JSFacts.leb_true z2 z1) by lra.
      reflexivity.
Qed.

Lemma fold_permutation (l l' : list (Vector.t * R)) :
  Permutation l l' -> forall cell, fold_left (Depth.step hit) l cell = fold_left (Depth.step hit) l' cell.
Proof.
  induction 1 as [| s l l' _ IH | s1 s2 l | l l' l'' _ IH1 _ IH2]; intros cell.
  - reflexivity.
  - cbn [fold_left]. apply IH.
  - cbn [fold_left]. rewrite step_swap. reflexivity.
  - rewrite IH1. apply IH2.
Qed.

End Cell.

Import Depth.

Lemma hits_spec (p : Plotter.t) (k : JS.number) (s : Vector.t * R) :
  hits p k s = true <-> Depth.target_of p s = Some k.
Proof.
  unfold hits. destruct (Depth.target_of p s) as [idx |].
  - rewrite JSFacts.key_eqb_eq. split; [intros ->; reflexivity | congruence].
  - split; discriminate.
Qed.

Lemma plot_all_cell (l : list (Vector.t * R)) (p : Plotter.t) (k : JS.number) :
  JS.get (Plotter.zbuf (Render.plot_all p l)) k
  = fold_left (Depth.step (hits p k)) l (JS.get (Plotter.zbuf p) k).
Proof. apply BufferFacts.plot_all_zbuf. Qed.

End FoldFacts.

(** X12: from a reset plotter, any run of calls of [plot] keeps the depth
    buffer and the winner array in step: a cell has a depth exactly when it
    has a winner, and every winner passed the palette and bounds checks, has
    rounded coordinates and sits at the index computed from them. *)
Theorem buffers_stay_in_step (p p0 : Plotter.t) (l : list (Vector.t * R)) :
  Plotter.reset p = Ok p0 -> Depth.in_step (Render.plot_all p0 l).
Proof.
  intros H. apply PlotterFacts.reset_Ok in H. subst p0.
  apply BufferFacts.plot_all_invariant.
  - intros q pt c. apply BufferFacts.in_step_plot.
  - apply BufferFacts.in_step_empty.
Qed.

Lemma buffers_stay_in_step_witness :
  Depth.in_step (Render.plot_all default_plotter
                   [(Vector.mk 0 0 5, 3); (Vector.mk 1 0 6, 7)]).
Proof.
  apply (buffers_stay_in_step default_plotter default_plotter).
  exact DefaultFacts.reset.
Defined.

(** X13: from a reset plotter, after any run of calls of [plot] a cell of the
    depth buffer is empty exactly when no call was tested against it, and
    otherwise holds the least depth among the calls tested against it. *)
Theorem depth_buffer_holds_minimum (p p0 : Plotter.t) (l : list (Vector.t * R))
    (k : JS.number) :
  Plotter.reset p = Ok p0 ->
  (JS.get (Plotter.zbuf (Render.plot_all p0 l)) k = None
   <-> forall s, In s l -> Depth.target_of p0 s <> Some k)
  /\ forall z : R,
       JS.get (Plotter.zbuf (Render.plot_all p0 l)) k = Some z ->
       (exists s, In s l /\ Depth.target_of p0 s = Some k /\ Depth.depth_of s = z)
       /\ forall s, In s l -> Depth.target_of p0 s = Some k -> z <= Depth.depth_of s.
Proof.
  intros H. apply PlotterFacts.reset_Ok in H.
  rewrite FoldFacts.plot_all_cell.
  assert (Hstart : JS.get (Plotter.zbuf p0) k = None) by (subst p0; reflexivity).
  rewrite Hstart. split.
  - rewrite FoldFacts.fold_None. split.
    + intros [_ Hn] s Hin Ht. apply FoldFacts.hits_spec in Ht.
      rewrite (Hn s Hin) in Ht. discriminate.
    + intros Hn. split; [reflexivity |]. intros s Hin.
      destruct (Depth.hits p0 k s) eqn:E; trivial.
      apply FoldFacts.hits_spec in E. elim (Hn s Hin E).
  - intros z Hz. apply FoldFacts.fold_min in Hz.
    destruct Hz as ([Hc | (s & Hin & Hh & Hd)] & _ & Hall); [discriminate |].
    split.
    + exists s. apply FoldFacts.hits_spec in Hh. auto.
    + intros s' Hin' Ht. apply Hall; trivial. apply FoldFacts.hits_spec, Ht.
Qed.

Lemma depth_buffer_holds_minimum_witness :
  (JS.get (Plotter.zbuf (Render.plot_all default_plotter
                           [(Vector.mk 0 0 6, 7); (Vector.mk 0 0 5, 3)]))
          (JS.Fin 3280) = None
   <-> forall s, In s [(Vector.mk 0 0 6, 7); (Vector.mk 0 0 5, 3)] ->
                 Depth.target_of default_plotter s <> Some (JS.Fin 3280))
  /\ forall z : R,
       JS.get (Plotter.zbuf (Render.plot_all default_plotter
                               [(Vector.mk 0 0 6, 7); (Vector.mk 0 0 5, 3)]))
              (JS.Fin 3280) = Some z ->
       (exists s, In s [(Vector.mk 0 0 6, 7); (Vector.mk 0 0 5, 3)]
                  /\ Depth.target_of default_plotter s = Some (JS.Fin 3280)
                  /\ Depth.depth_of s = z)
       /\ forall s, In s [(Vector.mk 0 0 6, 7); (Vector.mk 0 0 5, 3)] ->
                    Depth.target_of default_plotter s = Some (JS.Fin 3280) ->
                    z <= Depth.depth_of s.
Proof.
  apply (depth_buffer_holds_minimum default_plotter default_plotter
           [(Vector.mk 0 0 6, 7); (Vector.mk 0 0 5, 3)] (JS.Fin 3280)).
  exact DefaultFacts.reset.
Defined.

(** X14: the depth buffer does not depend on the order of the calls: two runs
    of the same calls of [plot], from any plotter, end with the same depth in
    every cell. *)
Theorem depth_buffer_order_independent (p : Plotter.t)
    (l l' : list (Vector.t * R)) (k : JS.number) :
  Permutation l l' ->
  JS.get (Plotter.zbuf (Render.plot_all p l)) k
  = JS.get (Plotter.zbuf (Render.plot_all p l')) k.
Proof.
  intros H. rewrite !FoldFacts.plot_all_cell.
  apply FoldFacts.fold_permutation, H.
Qed.

Lemma depth_buffer_order_independent_witness :
  JS.get (Plotter.zbuf (Render.plot_all default_plotter
                          [(Vector.mk 0 0 6, 7); (Vector.mk 0 0 5, 3)]))
         (JS.Fin 3280)
  = JS.get (Plotter.zbuf (Render.plot_all default_plotter
                            [(Vector.mk 0 0 5, 3); (Vector.mk 0 0 6, 7)]))
           (JS.Fin 3280).
Proof.
  apply (depth_buffer_order_independent default_plotter
           [(Vector.mk 0 0 6, 7); (Vector.mk 0 0 5, 3)]
           [(Vector.mk 0 0 5, 3); (Vector.mk 0 0 6, 7)] (JS.Fin 3280)).
  apply perm_swap.
Defined.



(* ================================================================== *)
(** * [Plotter.render] *)

Module RenderFacts.
Import Render.

Lemma bucket_of_Some (n : nat) (c : R) (k : nat) :
  bucket_of n c = Some k -> c = INR k /\ (k < n)%nat.
Proof.
  unfold bucket_of.
  destruct (JS.eqb (IZR (Zfloor c)) c) eqn:E1; [| discriminate].
  destruct (JS.leb 0 c) eqn:E2; [| discriminate].
  destruct (JS.ltb c (INR n)) eqn:E3; [| discriminate].
  cbn. intros H; inversion H; subst; clear H.
  apply JSFacts.eqb_spec in E1. apply JSFacts.leb_spec in E2.
  apply JSFacts.ltb_spec in E3.
  assert (H0 : (0 <= Zfloor c)%Z) by (apply le_IZR; rewrite E1; exact E2).
  assert (Hc : c = INR (Z.to_nat (Zfloor c))).
  { rewrite INR_IZR_INZ, Z2Nat.id by exact H0. congruence. }
  split; [exact Hc |]. apply INR_lt. rewrite <- Hc. exact E3.
Qed.

Lemma bucket_of_INR (n k : nat) : (k < n)%nat -> bucket_of n (INR k) = Some k.
Proof.
  intros H. unfold bucket_of. rewrite INR_IZR_INZ, ZfloorZ.
  rewrite JSFacts.eqb_true by reflexivity.
  rewrite JSFacts.leb_true by (apply IZR_le; lia).
  rewrite <- !INR_IZR_INZ.
  rewrite JSFacts.ltb_true by (apply lt_INR; exact H).
  cbn. rewrite Nat2Z.id. reflexivity.
Qed.

Lemma bucket_of_integer (n : nat) (m : Z) :
  0 <= IZR m < INR n -> exists k, bucket_of n (IZR m) = Some k.
Proof.
  intros [Hlo Hhi]. apply le_IZR in Hlo.
  exists (Z.to_nat m).
  rewrite <- (Z2Nat.id m) at 1 by exact Hlo. rewrite <- INR_IZR_INZ.
  apply bucket_of_INR. apply INR_lt.
  rewrite INR_IZR_INZ, Z2Nat.id by exact Hlo. exact Hhi.
Qed.

Lemma push_at_length (k : nat) (px : Pixel.t) (cs : list (list Pixel.t)) :
  length (push_at k px cs) = length cs.
Proof.
  revert k. induction cs as [| ps cs IH]; intros [| k]; cbn; auto.
Qed.

Lemma push_at_concat (k : nat) (px : Pixel.t) (cs : list (list Pixel.t)) :
  (k < length cs)%nat ->
  length (concat (push_at k px cs)) = S (length (concat cs)).
Proof.
  revert k. induction cs as [| ps cs IH]; intros [| k] H; cbn in *; try lia.
  - rewrite !length_app. cbn. lia.
  - rewrite !length_app, IH by lia. lia.
Qed.


Lemma group_length (ws : list Pixel.t) (cs cs' : list (list Pixel.t)) :
  group ws cs = Some cs' -> length cs' = length cs.
Proof.
  revert cs. induction ws as [| px ws IH]; intros cs; cbn.
  - intros H; inversion H; reflexivity.
  - destruct (bucket_of (length cs) (Pixel.c px)) as [k |]; [| discriminate].
    intros H. apply IH in H. rewrite push_at_length in H. exact H.
Qed.

Lemma group_concat (ws : list Pixel.t) (cs cs' : list (list Pixel.t)) :
  group ws cs = Some cs' ->
  length (concat cs') = (length (concat cs) + length ws)%nat.
Proof.
  revert cs. induction ws as [| px ws IH]; intros cs; cbn.
  - intros H; inversion H; lia.
  - destruct (bucket_of (length cs) (Pixel.c px)) as [k |] eqn:E; [| discriminate].
    intros H. apply IH in H. apply bucket_of_Some in E.
    rewrite push_at_concat in H by tauto. lia.
Qed.


Lemma group_None (ws : list Pixel.t) (cs : list (list Pixel.t)) :
  group ws cs = None
  <-> exists px, In px ws /\ bucket_of (length cs) (Pixel.c px) = None.
Proof.
  revert cs. induction ws as [| px ws IH]; intros cs; cbn [group].
  - split; [discriminate | intros (px & [] & _)].
  - destruct (bucket_of (length cs) (Pixel.c px)) as [k |] eqn:E.
    + rewrite IH, push_at_length. split.
      * intros (px' & Hin & Hb). exists px'. split; [now right | exact Hb].
      * intros (px' & [<- | Hin] & Hb); [congruence |]. exists px'. auto.
    + split; [| reflexivity]. intros _. exists px. split; [now left | exact E].
Qed.


Lemma paint_counts (p : Plotter.t) (colors : list (list Pixel.t)) :
  length colors = length (Plotter.palette p) ->
  length (filter Canvas.is_fillRect (paint p colors)) = length (concat colors)
  /\ length (filter Canvas.is_fillStyle (paint p colors)) = length (Plotter.palette p).
Proof.
  unfold paint. generalize (Plotter.palette p) as pal.
  induction colors as [| ps colors IH]; intros [| style pal] Hlen; cbn in Hlen;
    try discriminate; [cbn; auto |].
  destruct (IH pal) as [IH1 IH2]; [lia |].
  cbn [combine flat_map fst snd concat]. rewrite !filter_app, !length_app.
  cbn [filter Canvas.is_fillRect Canvas.is_fillStyle length].
  rewrite IH1, IH2. split.
  - f_equal. clear. induction ps as [| px ps IH]; cbn; [reflexivity | now rewrite IH].
  - assert (H : length (filter Canvas.is_fillStyle (map (rect p) ps)) = 0%nat).
    { clear. induction ps as [| px ps IH]; cbn; trivial. }
    rewrite H. cbn. lia.
Qed.

Lemma winners_length (p : Plotter.t) (len : nat) :
  (length (winners p len) <= len)%nat.
Proof.
  unfold winners.
  assert (H : forall l : list nat,
             (length (flat_map
                        (fun i => match JS.get (Plotter.points p) (JS.Fin (INR i)) with
                                  | Some px => [px]
                                  | None => []
                                  end) l) <= length l)%nat).
  { induction l as [| i l IH]; cbn [flat_map length]; [lia |].
    rewrite length_app. destruct (JS.get _ _); cbn [length]; lia. }
  specialize (H (seq 0 len)). rewrite length_seq in H. exact H.
Qed.

Lemma winners_In (p : Plotter.t) (len : nat) (px : Pixel.t) :
  In px (winners p len)
  <-> exists i, (i < len)%nat /\ JS.get (Plotter.points p) (JS.Fin (INR i)) = Some px.
Proof.
  unfold winners. rewrite in_flat_map. split.
  - intros (i & Hi & Hpx). apply in_seq in Hi. exists i. split; [lia |].
    destruct (JS.get _ _) as [px' |]; [| destruct Hpx].
    destruct Hpx as [-> | []]. reflexivity.
  - intros (i & Hi & Hpx). exists i. split; [apply in_seq; lia |].
    rewrite Hpx. now left.
Qed.

Lemma winners_nil (p : Plotter.t) (len : nat) :
  (forall i, JS.get (Plotter.points p) (JS.Fin (INR i)) = None) ->
  winners p len = [].
Proof.
  intros H. destruct (winners p len) as [| px ws] eqn:E; trivial.
  assert (Hin : In px (winners p len)) by (rewrite E; now left).
  apply winners_In in Hin. destruct Hin as (i & _ & Hi). rewrite H in Hi. discriminate.
Qed.

(** The cases of [render] when the buffers have a length. *)
Lemma render_unfold (p : Plotter.t) (len : nat) :
  JS.array_length (Plotter.size p * Plotter.size p) = Ok len ->
  render p =
  match group (winners p len) (repeat [] (length (Plotter.palette p))) with
  | None => TypeError
  | Some colors =>
      Rendered (paint p colors) (Plotter.with_buffers p JS.empty JS.empty)
  end.
Proof.
  intros H. unfold render, Plotter.reset, JS.new_Array. rewrite H.
  destruct (group _ _); reflexivity.
Qed.

End RenderFacts.

Module ShapeFacts.
Import Plotter.

Lemma with_buffers_self (p : t) : with_buffers p (zbuf p) (points p) = p.
Proof. destruct p; reflexivity. Qed.

Lemma plot_shape (p : t) (pt : Vector.t) (c : R) :
  exists zb pts, plot p pt c = with_buffers p zb pts.
Proof.
  destruct (PlotterFacts.plot_cases p pt c) as [-> | H]; [| exact H].
  exists (zbuf p), (points p). symmetry. apply with_buffers_self.
Qed.

Lemma plot_all_shape (l : list (Vector.t * R)) (p : t) :
  exists zb pts, Render.plot_all p l = with_buffers p zb pts.
Proof.
  revert p. induction l as [| s l IH]; intros p.
  - exists (zbuf p), (points p). symmetry. apply with_buffers_self.
  - change (Render.plot_all p (s :: l))
      with (Render.plot_all (plot p (fst s) (snd s)) l).
    destruct (plot_shape p (fst s) (snd s)) as (zb & pts & ->).
    destruct (IH (with_buffers p zb pts)) as (zb' & pts' & ->).
    exists zb', pts'. reflexivity.
Qed.

Lemma reset_length (p p0 : t) :
  reset p = Ok p0 -> exists len, JS.array_length (size p * size p) = Ok len.
Proof.
  unfold reset, JS.new_Array.
  destruct (JS.array_length (size p * size p)) as [len | |]; try discriminate.
  eauto.
Qed.

End ShapeFacts.

Module PaintFacts.
Import Render.

Lemma integer_colours_plot (p : Plotter.t) (pt : Vector.t) (m : Z) :
  Depth.integer_colours p -> Depth.integer_colours (Plotter.plot p pt (IZR m)).
Proof.
  intros Hp. rewrite PlotterFacts.plot_unfold.
  destruct (Plotter.accepted p pt (IZR m)) as [[xp yp] |]; [| exact Hp].
  destruct (JS.cell_le _ _); [exact Hp |].
  intros k px. cbn [Plotter.points Plotter.with_buffers].
  destruct (JS.key_eqb (Plotter.index p xp yp) k) eqn:E.
  - apply JSFacts.key_eqb_eq in E. subst k. rewrite JSFacts.get_set_same.
    intros H; inversion H; subst. exists m. reflexivity.
  - rewrite JSFacts.get_set_other
      by (intros H; apply JSFacts.key_eqb_eq in H; congruence).
    apply Hp.
Qed.

Lemma integer_colours_plot_all (l : list (Vector.t * R)) (p : Plotter.t) :
  (forall s, In s l -> exists m : Z, snd s = IZR m) ->
  Depth.integer_colours p -> Depth.integer_colours (plot_all p l).
Proof.
  revert p. induction l as [| s l IH]; intros p Hl Hp; [exact Hp |].
  change (plot_all p (s :: l)) with (plot_all (Plotter.plot p (fst s) (snd s)) l).
  apply IH; [intros s' Hin; apply Hl; now right |].
  destruct (Hl s (or_introl eq_refl)) as [m ->].
  apply integer_colours_plot, Hp.
Qed.

(** A winner that passed the palette check with an integer colour has a
    bucket. *)
Lemma checked_integer_has_bucket (p : Plotter.t) (c : R) (m : Z) :
  c = IZR m -> Plotter.bad_color p c = false ->
  exists k, bucket_of (length (Plotter.palette p)) c = Some k.
Proof.
  intros -> Hb. unfold Plotter.bad_color, Plotter.palette_length in Hb.
  apply orb_false_iff in Hb. destruct Hb as [H1 H2].
  apply RenderFacts.bucket_of_integer. split.
  - destruct (Rle_lt_dec 0 (IZR m)) as [H | H]; trivial.
    apply JSFacts.ltb_true in H. congruence.
  - destruct (Rlt_le_dec (IZR m) (INR (length (Plotter.palette p)))) as [H | H]; trivial.
    apply JSFacts.leb_true in H. congruence.
Qed.


End PaintFacts.





(** X18: when the buffers have a length, [render] throws a [TypeError]
    exactly when the array holds a winner whose colour is not one of the
    integers [0 .. palette.length - 1]; it throws before any command is sent,
    and the buffers are not reset. *)
Theorem render_type_error (p : Plotter.t) (len : nat) :
  JS.array_length (Plotter.size p * Plotter.size p) = Ok len ->
  (Render.render p = Render.TypeError
   <-> exists i px,
         (i < len)%nat
         /\ JS.get (Plotter.points p) (JS.Fin (INR i)) = Some px
         /\ Render.bucket_of (length (Plotter.palette p)) (Pixel.c px) = None).
Proof.
  intros Hlen. rewrite (RenderFacts.render_unfold p len Hlen).
  destruct (Render.group _ _) as [colors |] eqn:G.
  - split; [discriminate |]. intros (i & px & Hi & Hpx & Hb). exfalso.
    assert (Hn : Render.group (Render.winners p len)
                   (repeat [] (length (Plotter.palette p))) = None).
    { apply RenderFacts.group_None. exists px. rewrite repeat_length.
      split; [apply RenderFacts.winners_In; eauto | exact Hb]. }
    congruence.
  - split; [| reflexivity]. intros _.
    apply RenderFacts.group_None in G. destruct G as (px & Hin & Hb).
    rewrite repeat_length in Hb. apply RenderFacts.winners_In in Hin.
    destruct Hin as (i & Hi & Hpx). eauto.
Qed.

Lemma render_type_error_witness :
  Render.render (Plotter.plot default_plotter (Vector.mk 0 0 5) 0.5)
  = Render.TypeError.
Proof.
  assert (Hacc : Plotter.accepted default_plotter (Vector.mk 0 0 5) 0.5
                 = Some (JS.Fin (IZR 0), JS.Fin (IZR 0))).
  { apply PlotterFacts.accepted_finite.
    - unfold Plotter.bad_color. rewrite DefaultFacts.palette_length.
      rewrite JSFacts.ltb_false, JSFacts.leb_false by lra. reflexivity.
    - simpl; lra.
    - apply RoundFacts.Math_round_eq. unfold default_plotter; simpl; lra.
    - apply RoundFacts.Math_round_eq. unfold default_plotter; simpl; lra.
    - unfold default_plotter; simpl; lra.
    - unfold default_plotter; simpl; lra. }
  assert (Hidx : Plotter.index default_plotter (JS.Fin (IZR 0)) (JS.Fin (IZR 0))
                 = JS.Fin (INR (Z.to_nat 3280))).
  { rewrite INR_IZR_INZ, Z2Nat.id by lia.
    unfold Plotter.index, default_plotter; simpl. f_equal. lra. }
  apply (proj2 (render_type_error
                  (Plotter.plot default_plotter (Vector.mk 0 0 5) 0.5)
                  (Z.to_nat 6561) ltac:(
                    rewrite (proj1 (BufferFacts.plot_config _ _ _));
                    cbn [Plotter.size default_plotter];
                    replace ((80 + 1) * (80 + 1)) with (IZR 6561) by lra;
                    apply JSFacts.array_length_IZR; lia))).
  exists (Z.to_nat 3280), (Pixel.mk (JS.Fin (IZR 0)) (JS.Fin (IZR 0)) 0.5).
  split; [apply Z2Nat.inj_lt; lia |]. split.
  - rewrite PlotterFacts.plot_unfold, Hacc, Hidx.
    change (JS.get (Plotter.zbuf default_plotter) (JS.Fin (INR (Z.to_nat 3280))))
      with (@None R).
    cbn [JS.cell_le Plotter.points Plotter.with_buffers].
    apply JSFacts.get_set_same.
  - destruct (Render.bucket_of _ _) as [k |] eqn:E; trivial.
    apply RenderFacts.bucket_of_Some in E. destruct E as [E _].
    cbn [Pixel.c] in E. exfalso.
    rewrite INR_IZR_INZ in E.
    assert (H : IZR 1 = IZR (2 * Z.of_nat k)) by (rewrite mult_IZR; lra).
    apply eq_IZR in H. lia.
Defined.

Module ReturnFacts.

Lemma render_returns (p p0 : Plotter.t)
    (l : list (Vector.t * R)) :
  Plotter.reset p = Ok p0 ->
  (forall s, In s l -> exists m : Z, snd s = IZR m) ->
  exists cmds, Render.render (Render.plot_all p0 l) = Render.Rendered cmds p0.
Proof.
  intros Hreset Hl.
  pose proof (buffers_in_step_aux := BufferFacts.plot_all_invariant Depth.in_step
                (fun q pt c => BufferFacts.in_step_plot q pt c) l).
  pose proof Hreset as Hp0. apply PlotterFacts.reset_Ok in Hp0.
  assert (Hstep : Depth.in_step (Render.plot_all p0 l)).
  { apply buffers_in_step_aux. subst p0. apply BufferFacts.in_step_empty. }
  assert (Hint : Depth.integer_colours (Render.plot_all p0 l)).
  { apply PaintFacts.integer_colours_plot_all; [exact Hl |].
    subst p0. intros k px H. discriminate H. }
  destruct (ShapeFacts.plot_all_shape l p0) as (zb & pts & Hshape).
  assert (Hlen : exists len,
             JS.array_length (Plotter.size (Render.plot_all p0 l)
                              * Plotter.size (Render.plot_all p0 l)) = Ok len).
  { rewrite Hshape. subst p0. cbn [Plotter.size Plotter.with_buffers].
    unfold Plotter.reset, JS.new_Array in Hreset.
    destruct (JS.array_length (Plotter.size p * Plotter.size p)) as [len | |];
      try discriminate. eauto. }
  destruct Hlen as [len Hlen].
  rewrite (RenderFacts.render_unfold _ len Hlen).
  destruct (Render.group _ _) as [colors |] eqn:G.
  - exists (Render.paint (Render.plot_all p0 l) colors). f_equal.
    rewrite Hshape. subst p0. reflexivity.
  - exfalso. apply RenderFacts.group_None in G.
    destruct G as (px & Hin & Hb). rewrite repeat_length in Hb.
    apply RenderFacts.winners_In in Hin. destruct Hin as (i & _ & Hpx).
    destruct (Hint _ _ Hpx) as [m Hm].
    destruct (Hstep (JS.Fin (INR i))) as [_ Hw].
    destruct (Hw px Hpx) as (_ & Hbad & _).
    destruct (PaintFacts.checked_integer_has_bucket _ _ m Hm Hbad) as [k Hk].
    congruence.
Qed.

(** The counts of the commands of a call of [render] that returns. *)
Lemma render_counts (p p' : Plotter.t) (len : nat) (cmds : list Canvas.command) :
  JS.array_length (Plotter.size p * Plotter.size p) = Ok len ->
  Render.render p = Render.Rendered cmds p' ->
  length (filter Canvas.is_fillRect cmds) = length (Render.winners p len)
  /\ length (filter Canvas.is_fillStyle cmds) = length (Plotter.palette p).
Proof.
  intros Hlen. rewrite (RenderFacts.render_unfold p len Hlen).
  destruct (Render.group _ _) as [colors |] eqn:G; [| discriminate].
  intros H; inversion H; subst; clear H.
  pose proof (RenderFacts.group_length _ _ _ G) as Hl. rewrite repeat_length in Hl.
  pose proof (RenderFacts.group_concat _ _ _ G) as Hc.
  assert (H0 : length (concat (repeat (@nil Pixel.t) (length (Plotter.palette p)))) = 0%nat).
  { generalize (length (Plotter.palette p)). induction n; cbn; trivial. }
  rewrite H0 in Hc. cbn in Hc.
  destruct (RenderFacts.paint_counts p colors Hl) as [H1 H2].
  rewrite H1, H2, Hc. auto.
Qed.

End ReturnFacts.

(** X19: from a reset plotter, after any run of calls of [plot] whose
    colours are integers, [render] returns: it throws no [TypeError], and the
    plotter it leaves is the reset plotter again. *)
Theorem render_after_integer_colours (p p0 : Plotter.t)
    (l : list (Vector.t * R)) :
  Plotter.reset p = Ok p0 ->
  (forall s, In s l -> exists m : Z, snd s = IZR m) ->
  exists cmds, Render.render (Render.plot_all p0 l) = Render.Rendered cmds p0.
Proof. apply ReturnFacts.render_returns. Qed.

Lemma render_after_integer_colours_witness :
  exists cmds,
    Render.render (Render.plot_all default_plotter
                     [(Vector.mk 0 0 5, IZR 3); (Vector.mk 0 0 6, IZR 7)])
    = Render.Rendered cmds default_plotter.
Proof.
  apply (render_after_integer_colours default_plotter default_plotter).
  - exact DefaultFacts.reset.
  - intros s [<- | [<- | []]]; eexists; reflexivity.
Defined.

Module GridFacts.
Import Plotter.

(** A coordinate that passed the bounds check is a number within the bounds,
    or NaN. *)
Lemma in_bounds_cases (p : t) (cp : JS.number) :
  out_of_bounds p cp = false ->
  cp = JS.NaN
  \/ exists r, cp = JS.Fin r /\ min (bounds p) <= r <= max (bounds p).
Proof.
  unfold out_of_bounds, JS.gt. destruct cp as [r | | |]; cbn [JS.lt].
  - intros H. apply orb_false_iff in H. destruct H as [H1 H2]. right. exists r.
    split; [reflexivity |]. split.
    + destruct (Rle_lt_dec (min (bounds p)) r) as [H | H]; trivial.
      apply JSFacts.ltb_true in H. congruence.
    + destruct (Rle_lt_dec r (max (bounds p))) as [H | H]; trivial.
      apply JSFacts.ltb_true in H. congruence.
  - rewrite orb_true_r. discriminate.
  - discriminate.
  - now left.
Qed.

Lemma index_finite (p : t) (x y : R) :
  index p (JS.Fin x) (JS.Fin y)
  = JS.Fin ((y - min (bounds p)) * size p + (x - min (bounds p))).
Proof. reflexivity. Qed.

Lemma index_NaN (p : t) (xp yp : JS.number) :
  xp = JS.NaN \/ yp = JS.NaN -> index p xp yp = JS.NaN.
Proof.
  unfold index. intros [-> | ->].
  - destruct (JS.mul _ _); reflexivity.
  - reflexivity.
Qed.

(** With an odd grid dimension no winner is kept at an array index. *)
Lemma odd_no_index (n : R) (k : Z) (p : t) (i : nat) :
  configured n p -> n = IZR (2 * k + 1) -> Depth.in_step p ->
  JS.get (points p) (JS.Fin (INR i)) = None.
Proof.
  intros [Hs Hb] Hn Hstep.
  destruct (JS.get (points p) (JS.Fin (INR i))) as [px |] eqn:E; trivial.
  exfalso. destruct (Hstep (JS.Fin (INR i))) as [_ Hw].
  destruct (Hw px E) as (Hidx & _ & Hx & Hy & Rx & Ry).
  destruct (in_bounds_cases p _ Hx) as [Nx | (x & Ex & _)];
    [rewrite index_NaN in Hidx by (now left); discriminate |].
  destruct (in_bounds_cases p _ Hy) as [Ny | (y & Ey & _)];
    [rewrite index_NaN in Hidx by (now right); discriminate |].
  rewrite Ex in Rx. rewrite Ey in Ry. cbn in Rx, Ry.
  destruct Rx as [a ->]. destruct Ry as [b ->].
  rewrite Ex, Ey, index_finite, Hs, Hb in Hidx. cbn [min] in Hidx.
  inversion Hidx as [H]. rewrite Hn, INR_IZR_INZ in H.
  rewrite plus_IZR, mult_IZR in H.
  assert (H2 : IZR (2 * ((b + k) * (2 * k + 2) + (k + 1) + a + k) + 1)
               = IZR (2 * Z.of_nat i)).
  { rewrite !plus_IZR, !mult_IZR, !plus_IZR, !mult_IZR, !plus_IZR, !mult_IZR.
    lra. }
  apply eq_IZR in H2. lia.
Qed.

End GridFacts.

(** X20: on a plotter built for any grid dimension [size], a call of [plot]
    on a point of nonzero depth that passes the palette and bounds checks is
    tested at an index between 0 and [(size+1)^2 - 1]: no write goes at or
    beyond the length of the buffers. *)
Theorem accepted_index_within_length (size : R) (p : Plotter.t)
    (pt : Vector.t) (c : R) (idx : JS.number) :
  Plotter.configured size p ->
  Vector.z pt <> 0 ->
  Plotter.target p pt c = Some idx ->
  exists i : R,
    idx = JS.Fin i /\ 0 <= i <= Plotter.size p * Plotter.size p - 1.
Proof.
  intros Hp Hz. unfold Plotter.target, Plotter.accepted.
  destruct (Plotter.bad_color p c); [discriminate |].
  destruct (IndexFacts.project_integer p (Vector.x pt) (Vector.z pt) Hz) as [a Ha].
  destruct (IndexFacts.project_integer p (Vector.y pt) (Vector.z pt) Hz) as [b Hb].
  rewrite Ha, Hb.
  destruct (Plotter.out_of_bounds p (JS.Fin (IZR a))) eqn:Ex; [discriminate |].
  destruct (Plotter.out_of_bounds p (JS.Fin (IZR b))) eqn:Ey; [discriminate |].
  intros H; inversion H; subst; clear H.
  destruct (GridFacts.in_bounds_cases p _ Ex) as [N | (x & E & Bx)]; [discriminate |].
  inversion E; subst x; clear E.
  destruct (GridFacts.in_bounds_cases p _ Ey) as [N | (y & E & By)]; [discriminate |].
  inversion E; subst y; clear E.
  destruct Hp as [Hs Hbd]. rewrite Hbd in Bx, By. cbn in Bx, By.
  rewrite GridFacts.index_finite, Hs, Hbd. cbn [Plotter.min].
  eexists. split; [reflexivity |].
  set (u := IZR b - - size / 2). set (v := IZR a - - size / 2).
  assert (Hu : 0 <= u <= size) by (unfold u; lra).
  assert (Hv : 0 <= v <= size) by (unfold v; lra).
  split; nra.
Qed.

Lemma accepted_index_within_length_witness :
  exists i : R,
    JS.Fin 3280 = JS.Fin i
    /\ 0 <= i <= Plotter.size default_plotter * Plotter.size default_plotter - 1.
Proof.
  apply (accepted_index_within_length 80 default_plotter (Vector.mk 0 0 5) (IZR 3)).
  - exact DefaultFacts.configured.
  - simpl; lra.
  - apply (DefaultFacts.centre 5 3); [lra | lia].
Defined.

(** X21: a plotter constructed with an odd [size] never draws a pixel: every
    index computed by [plot] is a half-integer, so the winners are kept under
    keys that are no array indices, [forEach] does not visit them, and
    [render] sends the [fillStyle] commands only. *)
Theorem odd_grid_draws_nothing (k : Z) (sc dist : R) (pal : list Rgb)
    (p0 : Plotter.t) (l : list (Vector.t * R)) :
  Plotter.new (IZR (2 * k + 1)) sc dist pal = Ok p0 ->
  (forall i : nat,
      JS.get (Plotter.points (Render.plot_all p0 l)) (JS.Fin (INR i)) = None)
  /\ Render.render (Render.plot_all p0 l)
     = Render.Rendered (map Canvas.fillStyle pal) p0.
Proof.
  intros Hnew.
  pose proof (PlotterFacts.configured_new _ _ _ _ _ Hnew) as Hconf.
  unfold Plotter.new in Hnew.
  pose proof Hnew as Hp0. apply PlotterFacts.reset_Ok in Hp0.
  destruct (ShapeFacts.plot_all_shape l p0) as (zb & pts & Hshape).
  assert (Hstep : Depth.in_step (Render.plot_all p0 l)).
  { apply BufferFacts.plot_all_invariant.
    - intros q pt c. apply BufferFacts.in_step_plot.
    - subst p0. apply BufferFacts.in_step_empty. }
  assert (Hconf' : Plotter.configured (IZR (2 * k + 1)) (Render.plot_all p0 l)).
  { rewrite Hshape. exact Hconf. }
  assert (Hnone : forall i : nat,
             JS.get (Plotter.points (Render.plot_all p0 l)) (JS.Fin (INR i)) = None).
  { intros i. apply (GridFacts.odd_no_index (IZR (2 * k + 1)) k); trivial. }
  split; [exact Hnone |].
  assert (Hlen : exists len,
             JS.array_length (Plotter.size (Render.plot_all p0 l)
                              * Plotter.size (Render.plot_all p0 l)) = Ok len).
  { rewrite Hshape. subst p0. cbn [Plotter.size Plotter.with_buffers].
    apply ShapeFacts.reset_length in Hnew. exact Hnew. }
  destruct Hlen as [len Hlen].
  rewrite (RenderFacts.render_unfold _ len Hlen).
  rewrite (RenderFacts.winners_nil _ len Hnone). cbn [Render.group].
  f_equal.
  - rewrite Hshape. subst p0. unfold Render.paint.
    cbn [Plotter.palette Plotter.with_buffers].
    clear. induction pal as [| style pal IH]; [reflexivity |].
    cbn. f_equal. exact IH.
  - rewrite Hshape. subst p0. reflexivity.
Qed.

Lemma odd_grid_draws_nothing_witness :
  Render.render
    (Render.plot_all
       (Plotter.mk (IZR (2 * 1 + 1) + 1)
          (Plotter.mkBounds (- IZR (2 * 1 + 1) / 2) (IZR (2 * 1 + 1) / 2))
          8 30 default_palette JS.empty JS.empty)
       [(Vector.mk 0 0 5, 3)])
  = Render.Rendered (map Canvas.fillStyle default_palette)
      (Plotter.mk (IZR (2 * 1 + 1) + 1)
         (Plotter.mkBounds (- IZR (2 * 1 + 1) / 2) (IZR (2 * 1 + 1) / 2))
         8 30 default_palette JS.empty JS.empty).
Proof.
  apply (odd_grid_draws_nothing 1 8 30 default_palette).
  unfold Plotter.new, Plotter.reset, JS.new_Array. cbn [Plotter.size].
  replace ((IZR (2 * 1 + 1) + 1) * (IZR (2 * 1 + 1) + 1)) with (IZR 16)
    by (simpl; lra).
  rewrite JSFacts.array_length_IZR by lia. reflexivity.
Defined.

(* ================================================================== *)
(** * A draw pass, sample by sample *)

Module SweepFacts.
Import Donut.

(** A loop whose body is a function applies it to the counter values in
    turn. *)
Lemma for_loop_fold {S : Type} (g : R -> S -> S) (body : R -> S -> outcome S)
    (bound inc : R) :
  (forall x s s', body x s = Ok s' -> s' = g x s) ->
  forall (fuel : nat) (x : R) (s s' : S),
    for_loop fuel x bound inc body s = Ok s' ->
    s' = fold_left (fun s x => g x s) (Render.counter_values fuel x bound inc) s.
Proof.
  intros Hbody. induction fuel as [| fuel IH]; intros x s s' H.
  - cbn in *. destruct (JS.ltb x bound); [discriminate |].
    inversion H; reflexivity.
  - cbn [for_loop Render.counter_values] in *. destruct (JS.ltb x bound).
    + destruct (body x s) as [s1 | |] eqn:E; try discriminate.
      cbn [bind] in H. apply Hbody in E. subst s1. cbn [fold_left].
      apply IH, H.
    + inversion H; reflexivity.
Qed.

Lemma plot_all_map (f : R -> Vector.t * R) (ts : list R) (p : Plotter.t) :
  fold_left (fun q t => Plotter.plot q (fst (f t)) (snd (f t))) ts p
  = Render.plot_all p (map f ts).
Proof.
  revert p. induction ts as [| t ts IH]; intros p; [reflexivity |].
  cbn [fold_left map]. rewrite IH. reflexivity.
Qed.

Lemma plot_all_flat_map (row : R -> list (Vector.t * R)) (phis : list R)
    (p : Plotter.t) :
  fold_left (fun q phi => Render.plot_all q (row phi)) phis p
  = Render.plot_all p (flat_map row phis).
Proof.
  revert p. induction phis as [| phi phis IH]; intros p; [reflexivity |].
  cbn [fold_left flat_map]. rewrite IH, BufferFacts.plot_all_app. reflexivity.
Qed.

Lemma tube_sweep_samples (fuel : nat) (d : t) (phi : R) (p p' : Plotter.t) :
  tube_sweep fuel d phi p = Ok p' ->
  p' = Render.plot_all p
         (map (fun t => (donut d phi t, color d phi t))
              (Render.counter_values fuel 0 (2 * PI) (T_INC d))).
Proof.
  intros H. unfold tube_sweep in H.
  apply (for_loop_fold
           (fun t q => Plotter.plot q (donut d phi t) (color d phi t))) in H.
  - rewrite H. apply (plot_all_map (fun t => (donut d phi t, color d phi t))).
  - intros x s s' E. unfold sample in E. inversion E; reflexivity.
Qed.

(** The plotter after the two sweeps is the plotter after the calls of
    [plot] on the samples, in order. *)
Lemma ring_sweep_samples (fuel : nat) (d : t) (p p' : Plotter.t) :
  ring_sweep fuel d p = Ok p' -> p' = Render.plot_all p (Render.samples fuel d).
Proof.
  intros H. unfold ring_sweep in H.
  apply (for_loop_fold
           (fun phi q =>
              Render.plot_all q
                (map (fun t => (donut d phi t, color d phi t))
                     (Render.counter_values fuel 0 (2 * PI) (T_INC d))))) in H.
  - rewrite H. apply plot_all_flat_map.
  - intros x s s'. apply tube_sweep_samples.
Qed.

Lemma shade_integer (d : t) (n : Vector.t) : exists m : Z, shade d n = IZR m.
Proof.
  unfold shade, Math_max, Math_round, Rmax.
  destruct (Rle_dec _ _); eexists; reflexivity.
Qed.

Lemma samples_integer (fuel : nat) (d : t) (s : Vector.t * R) :
  In s (Render.samples fuel d) -> exists m : Z, snd s = IZR m.
Proof.
  unfold Render.samples. rewrite in_flat_map. intros (phi & _ & Hs).
  apply in_map_iff in Hs. destruct Hs as (t & <- & _).
  apply shade_integer.
Qed.

(** The first sample is the one at [phi = 0], [t = 0]. *)
Lemma samples_first (fuel : nat) (d : t) :
  exists rest,
    Render.samples (S fuel) d = (donut d 0 0, color d 0 0) :: rest.
Proof.
  unfold Render.samples. cbn [Render.counter_values].
  rewrite JSFacts.ltb_true by (pose proof PI_RGT_0; lra).
  cbn [flat_map map app]. eexists. reflexivity.
Qed.

End SweepFacts.

Module GridSampleFacts.
Import Donut.

Lemma surface_square (d : t) (phi t : R) :
  Vector.dot (surface d phi t) (surface d phi t)
  = (R2 d + R1 d * cos t) * (R2 d + R1 d * cos t)
    + (R1 d * sin t) * (R1 d * sin t).
Proof.
  unfold surface. rewrite DonutFacts.local_offset, DonutFacts.dot_body_self.
  unfold Vector.dot; cbn [Vector.x Vector.y Vector.z]. ring.
Qed.

(** The projection of one component of a point whose offset from the centre
    [(0, 0, 5)] is at most 3 long. *)
Lemma projection_bound (dist u w : R) (k : Z) :
  u * u + w * w <= 9 -> 0 <= dist -> 3 * dist <= 4 * IZR k ->
  - IZR k <= dist * u / (w + 5) <= IZR k.
Proof.
  intros Hlen Hd Hk.
  pose proof (Rle_0_sqr (3 * u + 4 * w)) as Hsq1.
  pose proof (Rle_0_sqr (3 * u - 4 * w)) as Hsq2.
  unfold Rsqr in Hsq1, Hsq2.
  assert (Hw : -3 <= w <= 3) by nra.
  assert (Hz : 0 < w + 5) by lra.
  assert (H1 : 4 * u - 3 * w <= 15) by nra.
  assert (H2 : - 4 * u - 3 * w <= 15) by nra.
  set (q := u / (w + 5)).
  assert (Hq : u = q * (w + 5)) by (unfold q; field; lra).
  assert (Hq1 : q <= 3 / 4) by nra.
  assert (Hq2 : - (3 / 4) <= q) by nra.
  replace (dist * u / (w + 5)) with (dist * q) by (unfold q, Rdiv; ring).
  split; nra.
Qed.

Lemma round_within (r : R) (k : Z) :
  - IZR k <= r <= IZR k ->
  exists i : Z, Math_round r = IZR i /\ (- k <= i <= k)%Z.
Proof.
  intros [Hlo Hhi]. exists (Zfloor (r + / 2)). split; [reflexivity |].
  pose proof (RoundFacts.Math_round_le r k Hhi) as H1.
  assert (Hlo' : IZR (- k) <= r) by (rewrite opp_IZR; exact Hlo).
  pose proof (RoundFacts.Math_round_ge r (- k) Hlo') as H2.
  unfold Math_round in H1, H2. split; apply le_IZR; assumption.
Qed.

(** Every sample of a torus with the constructor's radii and centre lands on
    the grid when the focal distance is at most two thirds of the grid
    dimension. *)
Lemma sample_on_grid (d : t) (p : Plotter.t) (n : R) (k : Z) (phi t : R) :
  R1 d = 1 -> R2 d = 2 -> CENTER d = Vector.mk 0 0 5 ->
  Plotter.configured n p -> n / 2 = IZR k ->
  0 <= Plotter.distance p -> 3 * Plotter.distance p <= 4 * IZR k ->
  2 <= Vector.z (donut d phi t)
  /\ exists i j : Z,
       Plotter.project p (Vector.x (donut d phi t)) (Vector.z (donut d phi t))
       = JS.Fin (IZR i)
       /\ Plotter.project p (Vector.y (donut d phi t)) (Vector.z (donut d phi t))
          = JS.Fin (IZR j)
       /\ (- k <= i <= k)%Z /\ (- k <= j <= k)%Z.
Proof.
  intros H1 H2 HC Hp Hk Hd Hdk.
  pose proof (surface_square d phi t) as Hs. rewrite H1, H2 in Hs.
  pose proof (sin2_cos2 t) as Hsc. unfold Rsqr in Hsc.
  pose proof (COS_bound t) as [Hc1 Hc2].
  unfold donut. rewrite HC.
  destruct (surface d phi t) as [sx sy sz].
  unfold Vector.dot in Hs. cbn [Vector.x Vector.y Vector.z Vector.add] in *.
  assert (Hlen : sx * sx + sy * sy + sz * sz <= 9) by nra.
  assert (Hz : 2 <= sz + 5) by nra.
  split; [exact Hz |].
  replace (sx + 0) with sx by ring. replace (sy + 0) with sy by ring.
  assert (Bx : - IZR k <= Plotter.distance p * sx / (sz + 5) <= IZR k)
    by (apply projection_bound; trivial; nra).
  assert (By : - IZR k <= Plotter.distance p * sy / (sz + 5) <= IZR k)
    by (apply projection_bound; trivial; nra).
  destruct (round_within _ k Bx) as (i & Hi & Ri).
  destruct (round_within _ k By) as (j & Hj & Rj).
  exists i, j. unfold Plotter.project.
  rewrite !JSFacts.div_nonzero by lra. cbn [Math_round_num].
  rewrite Hi, Hj. auto.
Qed.

Lemma integer_in_bounds (n : R) (k i : Z) (p : Plotter.t) :
  Plotter.configured n p -> n / 2 = IZR k -> (- k <= i <= k)%Z ->
  Plotter.out_of_bounds p (JS.Fin (IZR i)) = false.
Proof.
  intros [_ Hb] Hk [Hlo Hhi]. unfold Plotter.out_of_bounds, JS.gt.
  rewrite Hb. cbn [Plotter.min Plotter.max JS.lt].
  apply IZR_le in Hlo, Hhi. rewrite opp_IZR in Hlo.
  rewrite !JSFacts.ltb_false by lra. reflexivity.
Qed.

(** The shading level passes the palette check. *)
Lemma shade_passes (d : t) (n : Vector.t) (m : Z) :
  Vector.dot (LIGHT d) (LIGHT d) = 1 -> Vector.dot n n = 1 ->
  (0 <= m)%Z -> MAX_COLOR d = IZR m ->
  Plotter.palette_length (plotter d) = MAX_COLOR d + 1 ->
  Plotter.bad_color (plotter d) (shade d n) = false.
Proof.
  intros HL Hn Hm HM Hpal.
  pose proof (VectorFacts.cauchy_schwarz (LIGHT d) n) as Hcs.
  rewrite HL, Hn in Hcs.
  unfold shade, Math_max. rewrite HM.
  set (s := Vector.dot (LIGHT d) n) in *.
  assert (Hs : -1 <= s <= 1) by nra.
  assert (HmR : 0 <= IZR m) by (apply IZR_le; exact Hm).
  assert (Hr : Math_round (- s * IZR m) <= IZR m)
    by (apply RoundFacts.Math_round_le; nra).
  unfold Plotter.bad_color. rewrite Hpal, HM.
  assert (H0 : 0 <= Rmax 0 (Math_round (- s * IZR m))) by apply Rmax_l.
  assert (H1 : Rmax 0 (Math_round (- s * IZR m)) <= IZR m)
    by (apply Rmax_lub; assumption).
  rewrite JSFacts.ltb_false, JSFacts.leb_false by lra. reflexivity.
Qed.

End GridSampleFacts.



(* ================================================================== *)
(** * Frames of the program's own donut *)

Module FrameFacts.
Import Donut.

(** The states of the program's donut: only the timestamp and the two angles
    change. *)
Lemma state_fuel (l : option R) (a b : R) :
  0 < T_INC (with_time default_donut l a b)
  /\ 2 * PI <= INR 320 * T_INC (with_time default_donut l a b)
  /\ 0 < PHI_INC (with_time default_donut l a b)
  /\ 2 * PI <= INR 320 * PHI_INC (with_time default_donut l a b).
Proof. apply UpdateFacts.default_fuel; reflexivity. Qed.

Lemma state_sweep (l : option R) (a b : R) :
  exists p,
    ring_sweep 320 (with_time default_donut l a b) default_plotter = Ok p
    /\ p = Render.plot_all default_plotter
             (Render.samples 320 (with_time default_donut l a b)).
Proof.
  destruct (state_fuel l a b) as (H1 & H2 & H3 & H4).
  destruct (LoopFacts.ring_sweep_total 320 (with_time default_donut l a b)
              default_plotter H1 H2 H3 H4) as [p Hp].
  exists p. split; [exact Hp |]. apply SweepFacts.ring_sweep_samples, Hp.
Qed.

Lemma length_default : 
  JS.array_length (Plotter.size default_plotter * Plotter.size default_plotter)
  = Ok (Z.to_nat 6561).
Proof.
  cbn [Plotter.size default_plotter].
  replace ((80 + 1) * (80 + 1)) with (IZR 6561) by lra.
  apply JSFacts.array_length_IZR. lia.
Qed.

Lemma light_unit_state (l : option R) (a b : R) :
  Vector.dot (LIGHT (with_time default_donut l a b))
             (LIGHT (with_time default_donut l a b)) = 1.
Proof. exact DonutFacts.light_unit. Qed.

(** The first sample of a frame is accepted, at an array index. *)
Lemma first_sample (l : option R) (a b : R) :
  exists m : Z,
    (0 <= m < 6561)%Z
    /\ Plotter.target default_plotter
         (donut (with_time default_donut l a b) 0 0)
         (color (with_time default_donut l a b) 0 0)
       = Some (JS.Fin (IZR m)).
Proof.
  set (d := with_time default_donut l a b).
  destruct (GridSampleFacts.sample_on_grid d default_plotter 80 40 0 0)
    as (Hz & i & j & Hi & Hj & Ri & Rj); try reflexivity.
  - exact DefaultFacts.configured.
  - lra.
  - unfold default_plotter; cbn [Plotter.distance]; lra.
  - unfold default_plotter; cbn [Plotter.distance]; lra.
  - assert (Hc : Plotter.bad_color default_plotter (color d 0 0) = false).
    { apply (GridSampleFacts.shade_passes d (normal d 0 0) 9).
      - apply light_unit_state.
      - apply DonutFacts.normal_unit.
      - lia.
      - unfold d; cbn [MAX_COLOR with_time default_donut]; lra.
      - unfold d; cbn [plotter MAX_COLOR with_time default_donut].
        rewrite DefaultFacts.palette_length. lra. }
    exists ((j + 40) * (2 * 40 + 1) + (i + 40))%Z. split; [lia |].
    unfold Plotter.target, Plotter.accepted. rewrite Hc, Hi, Hj.
    rewrite !(GridSampleFacts.integer_in_bounds 80 40)
      by (try exact DefaultFacts.configured; try lra; assumption).
    f_equal. apply (IndexFacts.index_integer 80 40);
      [exact DefaultFacts.configured | lra].
Qed.

(** After the sweeps the cell of the first sample holds a winner. *)
Lemma first_winner (l : option R) (a b : R) :
  exists (i : nat) (px : Pixel.t),
    (i < Z.to_nat 6561)%nat
    /\ JS.get (Plotter.points
                 (Render.plot_all default_plotter
                    (Render.samples 320 (with_time default_donut l a b))))
              (JS.Fin (INR i)) = Some px.
Proof.
  destruct (first_sample l a b) as (m & Hm & Ht).
  destruct (SweepFacts.samples_first 319 (with_time default_donut l a b))
    as [rest Hs].
  change (S 319) with 320%nat in Hs. rewrite Hs.
  set (s0 := (donut (with_time default_donut l a b) 0 0,
              color (with_time default_donut l a b) 0 0)) in *.
  set (p := Render.plot_all default_plotter (s0 :: rest)).
  assert (Hstep : Depth.in_step p).
  { apply BufferFacts.plot_all_invariant.
    - intros q pt c. apply BufferFacts.in_step_plot.
    - apply (BufferFacts.in_step_empty default_plotter). }
  assert (Hz : exists z, JS.get (Plotter.zbuf p) (JS.Fin (IZR m)) = Some z).
  { unfold p. rewrite FoldFacts.plot_all_cell. cbn [fold_left].
    assert (Hhit : Depth.hits default_plotter (JS.Fin (IZR m)) s0 = true)
      by (apply FoldFacts.hits_spec; exact Ht).
    unfold Depth.step at 2. rewrite Hhit.
    change (JS.get (Plotter.zbuf default_plotter) (JS.Fin (IZR m))) with (@None R).
    unfold Depth.closer. cbn [JS.cell_le].
    destruct (FoldFacts.fold_Some (Depth.hits default_plotter (JS.Fin (IZR m)))
                rest (Depth.depth_of s0)) as (z & Hz & _).
    exists z. exact Hz. }
  destruct Hz as [z Hz].
  destruct (Hstep (JS.Fin (IZR m))) as [Hiff Hw].
  destruct (JS.get (Plotter.points p) (JS.Fin (IZR m))) as [px |] eqn:E.
  - exists (Z.to_nat m), px. split; [apply Z2Nat.inj_lt; lia |].
    rewrite INR_IZR_INZ, Z2Nat.id by lia. exact E.
  - destruct Hiff as [_ Hback]. rewrite (Hback eq_refl) in Hz. discriminate.
Qed.

End FrameFacts.

(** X23: a frame of the program's donut, for any orientation: the draw pass
    returns, it clears the canvas first, then [render] sends one [fillStyle]
    for each of the 10 palette entries and at least one and at most [81 * 81]
    rectangles, and leaves the plotter reset. *)
Theorem default_frame (l : option R) (a b : R) :
  exists cmds,
    Render.draw 320 (Donut.with_time default_donut l a b)
    = Ok (Canvas.clearRect (Donut.left default_donut) (Donut.top default_donut)
                           (Donut.width default_donut) (Donut.height default_donut),
          Render.Rendered cmds default_plotter)
    /\ (1 <= length (filter Canvas.is_fillRect cmds) <= Z.to_nat 6561)%nat
    /\ length (filter Canvas.is_fillStyle cmds) = 10%nat.
Proof.
  destruct (FrameFacts.state_sweep l a b) as (p & Hsweep & Hp).
  destruct (ReturnFacts.render_returns default_plotter default_plotter
              (Render.samples 320 (Donut.with_time default_donut l a b))
              DefaultFacts.reset
              (SweepFacts.samples_integer 320 _)) as [cmds Hr].
  rewrite <- Hp in Hr.
  exists cmds. split.
  - unfold Render.draw.
    change (Donut.plotter (Donut.with_time default_donut l a b)) with default_plotter.
    rewrite Hsweep. cbn [bind]. rewrite Hr. reflexivity.
  - destruct (ShapeFacts.plot_all_shape
                (Render.samples 320 (Donut.with_time default_donut l a b))
                default_plotter) as (zb & pts & Hshape).
    rewrite <- Hp in Hshape.
    assert (Hlen : JS.array_length (Plotter.size p * Plotter.size p)
                   = Ok (Z.to_nat 6561)).
    { rewrite Hshape. exact FrameFacts.length_default. }
    destruct (ReturnFacts.render_counts p default_plotter _ cmds Hlen Hr) as [H1 H2].
    rewrite H1, H2. split.
    + split; [| apply RenderFacts.winners_length].
      destruct (FrameFacts.first_winner l a b) as (i & px & Hi & Hpx).
      rewrite <- Hp in Hpx.
      assert (Hin : In px (Render.winners p (Z.to_nat 6561)))
        by (apply RenderFacts.winners_In; eauto).
      destruct (Render.winners p (Z.to_nat 6561)); [destruct Hin | cbn; lia].
    + rewrite Hshape. cbn [Plotter.palette Plotter.with_buffers].
      unfold default_plotter, default_palette. cbn [Plotter.palette].
      rewrite length_map, length_seq. reflexivity.
Qed.

Module TickFacts.

Lemma update_state (l : option R) (a b ts : R) :
  Donut.update 320 (Donut.with_time default_donut l a b) ts
  = Ok (Donut.with_time default_donut (Some ts)
          (a + 0.07 * ((ts - JS.or_else l ts) * 60 / 1000))
          (b + 0.03 * ((ts - JS.or_else l ts) * 60 / 1000))).
Proof.
  set (a' := a + 0.07 * ((ts - JS.or_else l ts) * 60 / 1000)).
  set (b' := b + 0.03 * ((ts - JS.or_else l ts) * 60 / 1000)).
  change (Donut.draw 320 (Donut.with_time default_donut (Some ts) a' b')
          = Ok (Donut.with_time default_donut (Some ts) a' b')).
  unfold Donut.draw.
  change (Donut.plotter (Donut.with_time default_donut (Some ts) a' b'))
    with default_plotter.
  destruct (FrameFacts.state_sweep (Some ts) a' b') as (p & Hsweep & Hp).
  rewrite Hsweep. cbn [bind].
  destruct (ShapeFacts.plot_all_shape
              (Render.samples 320 (Donut.with_time default_donut (Some ts) a' b'))
              default_plotter) as (zb & pts & Hshape).
  rewrite <- Hp in Hshape. rewrite Hshape. unfold Donut.render.
  change (Plotter.reset (Plotter.with_buffers default_plotter zb pts))
    with (Plotter.reset default_plotter).
  rewrite DefaultFacts.reset. reflexivity.
Qed.

Lemma last_cons (t0 ts : R) (ticks : list R) :
  last (ts :: ticks) t0 = last ticks ts.
Proof.
  revert t0 ts. induction ticks as [| t ticks IH]; intros t0 ts; [reflexivity |].
  change (last (ts :: t :: ticks) t0) with (last (t :: ticks) t0).
  rewrite (IH t0 t), (IH ts t). reflexivity.
Qed.

Lemma state_eq (l : option R) (a a' b b' : R) :
  a = a' -> b = b' ->
  Donut.with_time default_donut l a b = Donut.with_time default_donut l a' b'.
Proof. intros -> ->. reflexivity. Qed.

(** The angles after a run of ticks, none of them 0, from a stored timestamp
    other than 0. *)
Lemma run_state (ticks : list R) :
  Forall (fun ts => ts <> 0) ticks ->
  forall t0 a b : R,
    t0 <> 0 ->
    Frame.run 320 (Donut.with_time default_donut (Some t0) a b) ticks
    = Ok (Donut.with_time default_donut (Some (last ticks t0))
            (a + 0.07 * ((last ticks t0 - t0) * 60 / 1000))
            (b + 0.03 * ((last ticks t0 - t0) * 60 / 1000))).
Proof.
  induction 1 as [| ts ticks Hts _ IH]; intros t0 a b Ht0.
  - cbn [Frame.run last]. f_equal. apply state_eq; lra.
  - cbn [Frame.run]. rewrite update_state. cbn [bind JS.or_else].
    rewrite (JSFacts.eqb_false t0 0 Ht0).
    rewrite (IH ts _ _ Hts), last_cons. f_equal. apply state_eq; lra.
Qed.

End TickFacts.

(** X24: a tick of the program's donut changes the stored timestamp and the
    two angles and nothing else: [update] returns, the buffers are reset, and
    [a] and [b] advance by 0.07 and 0.03 times [elapsed * 60 / 1000], where
    [elapsed] is 0 when no timestamp, or the timestamp 0, is stored. *)
Theorem default_update (l : option R) (a b ts : R) :
  Donut.update 320 (Donut.with_time default_donut l a b) ts
  = Ok (Donut.with_time default_donut (Some ts)
          (a + 0.07 * ((ts - JS.or_else l ts) * 60 / 1000))
          (b + 0.03 * ((ts - JS.or_else l ts) * 60 / 1000))).
Proof. apply TickFacts.update_state. Qed.

(** X25: the animation does not depend on the frame rate: after any run of
    ticks, none of them 0, the angles have advanced by 0.07 and 0.03 times
    [(last - first) * 60 / 1000], where [first] is the stored timestamp, or
    the first tick when none is stored; the ticks in between cancel out. *)
Theorem frames_telescope (t0 a b : R) (ticks : list R) :
  t0 <> 0 -> Forall (fun ts => ts <> 0) ticks ->
  Frame.run 320 (Donut.with_time default_donut (Some t0) a b) ticks
  = Ok (Donut.with_time default_donut (Some (last ticks t0))
          (a + 0.07 * ((last ticks t0 - t0) * 60 / 1000))
          (b + 0.03 * ((last ticks t0 - t0) * 60 / 1000)))
  /\ Frame.run 320 (Donut.with_time default_donut None a b) (t0 :: ticks)
     = Ok (Donut.with_time default_donut (Some (last ticks t0))
             (a + 0.07 * ((last ticks t0 - t0) * 60 / 1000))
             (b + 0.03 * ((last ticks t0 - t0) * 60 / 1000))).
Proof.
  intros Ht0 Hticks. split; [apply TickFacts.run_state; assumption |].
  cbn [Frame.run]. rewrite TickFacts.update_state. cbn [bind JS.or_else].
  rewrite (TickFacts.run_state ticks Hticks) by exact Ht0.
  f_equal. apply TickFacts.state_eq; lra.
Qed.

Lemma frames_telescope_witness :
  Frame.run 320 default_donut [1000; 1016.67; 1033.34; 2000]
  = Ok (Donut.with_time default_donut (Some (last [1016.67; 1033.34; 2000] 1000))
          (1 + 0.07 * ((last [1016.67; 1033.34; 2000] 1000 - 1000) * 60 / 1000))
          (1 + 0.03 * ((last [1016.67; 1033.34; 2000] 1000 - 1000) * 60 / 1000))).
Proof.
  apply (frames_telescope 1000 1 1 [1016.67; 1033.34; 2000]).
  - lra.
  - repeat constructor; lra.
Defined.

(* ================================================================== *)
(** * Construction: the palette and the constructors *)

Module PaletteFacts.

Lemma max_finite (a b : R) : JS.max (JS.Fin a) (JS.Fin b) = JS.Fin (Rmax a b).
Proof.
  unfold JS.max, JS.lt, Rmax, JS.ltb.
  destruct (Rlt_dec a b) as [H | H], (Rle_dec a b) as [H' | H'];
    trivial; try lra. f_equal. lra.
Qed.

Lemma makeColor_finite (lv : R) :
  makeColor (JS.Fin lv)
  = mkRgb (JS.Fin (Rmax lv 20)) (JS.Fin (Rmax (lv / 2) 10)) (JS.Fin (lv / 4)).
Proof.
  unfold makeColor. cbn [JS.ndiv].
  rewrite !JSFacts.div_nonzero by lra. rewrite !max_finite. reflexivity.
Qed.

Lemma round_hundreds (i : nat) : Math_round (INR i * 100) = INR i * 100.
Proof.
  rewrite INR_IZR_INZ, <- mult_IZR. apply RoundFacts.Math_round_IZR.
Qed.

(** A number is an array length when it is an integer in [[0, 2^32)]. *)
Lemma array_length_cases (x : R) :
  (exists len, JS.array_length x = Ok len
               /\ exists k : Z, (0 <= k < 4294967296)%Z /\ x = IZR k)
  \/ (JS.array_length x = RangeError
      /\ forall k : Z, (0 <= k < 4294967296)%Z -> x <> IZR k).
Proof.
  unfold JS.array_length.
  destruct (JS.eqb (IZR (Zfloor x)) x) eqn:E1; cbn [andb].
  - apply JSFacts.eqb_spec in E1.
    destruct (JS.leb 0 x) eqn:E2; cbn [andb].
    + apply JSFacts.leb_spec in E2.
      destruct (JS.ltb x 4294967296) eqn:E3.
      * apply JSFacts.ltb_spec in E3. left. eexists. split; [reflexivity |].
        exists (Zfloor x). split; [| congruence].
        rewrite <- E1 in E2, E3. apply le_IZR in E2. apply lt_IZR in E3. lia.
      * right. split; [reflexivity |]. intros k [_ Hk] ->.
        apply IZR_lt in Hk. apply JSFacts.ltb_true in Hk. congruence.
    + right. split; [reflexivity |]. intros k [Hk _] ->.
      apply IZR_le in Hk. apply JSFacts.leb_true in Hk. congruence.
  - right. split; [reflexivity |]. intros k _ ->.
    rewrite ZfloorZ in E1. rewrite JSFacts.eqb_true in E1 by reflexivity.
    discriminate.
Qed.

End PaletteFacts.

(** X26: for [n] colours, [2 <= n < 2^32], [makePalette] returns [n] entries;
    entry [i] has the level [100 * i / (n - 1)], which runs from 0 to 100, and
    the components [max(level, 20)], [max(level / 2, 10)] and [level / 4]. *)
Theorem palette_entries (n : nat) :
  (2 <= n)%nat -> (Z.of_nat n < 4294967296)%Z ->
  exists pal,
    makePalette (INR n) = Ok pal
    /\ length pal = n
    /\ forall i, (i < n)%nat ->
         let level := 100 * INR i / (INR n - 1) in
         nth_error pal i
         = Some (mkRgb (JS.Fin (Rmax level 20))
                       (JS.Fin (Rmax (level / 2) 10))
                       (JS.Fin (level / 4)))
         /\ 0 <= level <= 100.
Proof.
  intros Hn Hmax.
  assert (Hn2 : 2 <= INR n) by (change 2 with (INR 2); apply le_INR; exact Hn).
  eexists. split; [| split].
  - unfold makePalette. rewrite INR_IZR_INZ.
    rewrite JSFacts.array_length_IZR by lia. cbn [bind]. reflexivity.
  - rewrite length_map, length_seq. apply Nat2Z.id.
  - intros i Hi level. rewrite Nat2Z.id. split.
    + rewrite nth_error_map, nth_error_nth' with (d := 0%nat)
        by (rewrite length_seq; exact Hi).
      rewrite seq_nth by exact Hi. cbn [option_map Nat.add].
      rewrite PaletteFacts.round_hundreds, <- INR_IZR_INZ.
      rewrite JSFacts.div_nonzero by lra.
      rewrite PaletteFacts.makeColor_finite.
      replace (INR i * 100 / (INR n - 1)) with level
        by (unfold level; field; lra).
      reflexivity.
    + assert (Hi0 : 0 <= INR i) by apply pos_INR.
      assert (Hi1 : INR i <= INR n - 1).
      { assert (H : INR (S i) <= INR n) by (apply le_INR; lia).
        rewrite S_INR in H. lra. }
      unfold level. split.
      * apply Rmult_le_pos; [nra | apply Rlt_le, Rinv_0_lt_compat; lra].
      * apply Rmult_le_reg_r with (INR n - 1); [lra |].
        unfold Rdiv. rewrite Rmult_assoc, Rinv_l by lra. nra.
Qed.

Lemma palette_entries_witness :
  exists pal,
    makePalette (INR 10) = Ok pal
    /\ length pal = 10%nat
    /\ forall i, (i < 10)%nat ->
         let level := 100 * INR i / (INR 10 - 1) in
         nth_error pal i
         = Some (mkRgb (JS.Fin (Rmax level 20))
                       (JS.Fin (Rmax (level / 2) 10))
                       (JS.Fin (level / 4)))
         /\ 0 <= level <= 100.
Proof. apply (palette_entries 10); lia. Defined.

(** X27: [makePalette(size)] throws a [RangeError] for every [size] that is
    no array length: a negative number, a fraction, or [2^32] and more. *)
Theorem palette_range_error (size : R) :
  (forall k : Z, (0 <= k < 4294967296)%Z -> size <> IZR k) ->
  makePalette size = RangeError.
Proof.
  intros H. unfold makePalette.
  destruct (PaletteFacts.array_length_cases size)
    as [(len & _ & k & Hk & ->) | [-> _]].
  - elim (H k Hk). reflexivity.
  - reflexivity.
Qed.

Lemma palette_range_error_witness : makePalette (5 / 2) = RangeError.
Proof.
  apply (palette_range_error (5 / 2)).
  intros k _ H.
  assert (H2 : IZR 5 = IZR (2 * k)) by (rewrite mult_IZR; lra).
  apply eq_IZR in H2. lia.
Defined.

(** X28: the two smallest palettes: [makePalette(0)] is empty, and
    [makePalette(1)] has one entry whose level is [0 / 0], so its three
    components are NaN. *)
Theorem palette_small :
  makePalette 0 = Ok []
  /\ makePalette 1 = Ok [mkRgb JS.NaN JS.NaN JS.NaN].
Proof.
  unfold makePalette. split.
  - rewrite (JSFacts.array_length_IZR 0) by lia. reflexivity.
  - rewrite (JSFacts.array_length_IZR 1) by lia. cbn [bind].
    change (Z.to_nat 1) with 1%nat. cbn [seq map].
    rewrite PaletteFacts.round_hundreds. unfold JS.div.
    rewrite !JSFacts.eqb_true by (simpl; lra). reflexivity.
Qed.

(** X29: the constructor of [Donut] returns exactly when [colors] and
    [(size + 1)^2] are array lengths, and throws a [RangeError] otherwise;
    the donut it returns has no stored timestamp, both angles 1, the radii 1
    and 2, a unit light direction, [MAX_COLOR = colors - 1], a palette of
    [colors] entries and empty buffers. *)
Theorem constructor_outcome (cfg : Donut.Config) :
  ((exists d, Donut.new cfg = Ok d) \/ Donut.new cfg = RangeError)
  /\ ((exists d, Donut.new cfg = Ok d)
      <-> (exists k : Z, (0 <= k < 4294967296)%Z /\ Donut.cfg_colors cfg = IZR k)
          /\ exists k : Z,
               (0 <= k < 4294967296)%Z
               /\ (Donut.cfg_size cfg + 1) * (Donut.cfg_size cfg + 1) = IZR k)
  /\ forall d, Donut.new cfg = Ok d ->
       Donut.lastTs d = None /\ Donut.a d = 1 /\ Donut.b d = 1
       /\ Donut.R1 d = 1 /\ Donut.R2 d = 2
       /\ Vector.dot (Donut.LIGHT d) (Donut.LIGHT d) = 1
       /\ Donut.MAX_COLOR d = Donut.cfg_colors cfg - 1
       /\ Plotter.palette_length (Donut.plotter d) = Donut.cfg_colors cfg
       /\ Plotter.configured (Donut.cfg_size cfg) (Donut.plotter d)
       /\ forall k, JS.get (Plotter.zbuf (Donut.plotter d)) k = None
                    /\ JS.get (Plotter.points (Donut.plotter d)) k = None.
Proof.
  assert (Hcases :
    (exists d, Donut.new cfg = Ok d
               /\ (exists k : Z, (0 <= k < 4294967296)%Z /\ Donut.cfg_colors cfg = IZR k)
               /\ exists k : Z,
                    (0 <= k < 4294967296)%Z
                    /\ (Donut.cfg_size cfg + 1) * (Donut.cfg_size cfg + 1) = IZR k)
    \/ (Donut.new cfg = RangeError
        /\ ((forall k : Z, (0 <= k < 4294967296)%Z -> Donut.cfg_colors cfg <> IZR k)
            \/ forall k : Z, (0 <= k < 4294967296)%Z ->
                 (Donut.cfg_size cfg + 1) * (Donut.cfg_size cfg + 1) <> IZR k))).
  { unfold Donut.new, makePalette, Plotter.new, Plotter.reset, JS.new_Array.
    cbn [Plotter.size].
    destruct (PaletteFacts.array_length_cases (Donut.cfg_colors cfg))
      as [(n & -> & Hc) | [-> Hc]]; cbn [bind]; [| right; auto].
    destruct (PaletteFacts.array_length_cases
                ((Donut.cfg_size cfg + 1) * (Donut.cfg_size cfg + 1)))
      as [(len & -> & Hs) | [-> Hs]]; cbn [bind]; [| right; auto].
    left. eexists. split; [reflexivity | auto]. }
  split; [| split].
  - destruct Hcases as [(d & Hd & _) | [Hr _]]; [left; eauto | right; exact Hr].
  - split.
    + intros [d Hd]. destruct Hcases as [(d' & _ & H) | [Hr _]]; [exact H | congruence].
    + intros [(k1 & Hk1 & E1) (k2 & Hk2 & E2)].
      destruct Hcases as [(d & Hd & _) | [_ [H | H]]]; [eauto | |].
      * elim (H k1 Hk1 E1).
      * elim (H k2 Hk2 E2).
  - intros d Hd.
    unfold Donut.new, makePalette in Hd.
    destruct (JS.array_length (Donut.cfg_colors cfg)) as [n | |] eqn:En;
      try discriminate.
    cbn [bind] in Hd.
    destruct (Plotter.new _ _ _ _) as [p | |] eqn:Ep; try discriminate.
    cbn [bind] in Hd. inversion Hd; subst; clear Hd.
    cbn [Donut.lastTs Donut.a Donut.b Donut.R1 Donut.R2 Donut.LIGHT
         Donut.MAX_COLOR Donut.plotter].
    pose proof (PlotterFacts.configured_new _ _ _ _ _ Ep) as Hconf.
    unfold Plotter.new in Ep. apply PlotterFacts.reset_Ok in Ep. subst p.
    repeat (split; [reflexivity |]).
    split.
    { apply VectorFacts.normalize_unit.
      intros H. apply (f_equal Vector.z) in H. cbn [Vector.z] in H. lra. }
    split; [reflexivity |]. split.
    { unfold Plotter.palette_length. cbn [Plotter.palette Plotter.with_buffers].
      rewrite length_map, length_seq. symmetry.
      apply JSFacts.array_length_Ok, En. }
    split; [exact Hconf |].
    intros k. split; reflexivity.
Qed.

(** The two accounts of a draw pass agree: when the pass with its canvas
    commands returns, the state-passing [Donut.draw] returns the same
    plotter. *)
Lemma draw_agrees (fuel : nat) (d : Donut.t) (clear : Canvas.command)
    (cmds : list Canvas.command) (p' : Plotter.t) :
  Render.draw fuel d = Ok (clear, Render.Rendered cmds p') ->
  Donut.draw fuel d = Ok (Donut.with_plotter d p').
Proof.
  unfold Render.draw, Donut.draw.
  destruct (Donut.ring_sweep fuel d (Donut.plotter d)) as [p | |]; try discriminate.
  cbn [bind]. intros H. inversion H as [[Hc Hr]]. clear H Hc.
  unfold Render.render in Hr. unfold Donut.render.
  destruct (JS.array_length (Plotter.size p * Plotter.size p)); try discriminate.
  destruct (Render.group _ _); try discriminate.
  destruct (Plotter.reset p) as [q | |]; try discriminate.
  inversion Hr; subst. reflexivity.
Qed.
